(** * botogram: signed callback data and inline keyboards

    A shallow embedding of [botogram/callbacks.py].  Python values are
    modelled as the interpreter has them: [bytes] as lists of bytes,
    [str] as lists of Unicode code points (lone surrogates included),
    an exception as the [Raise] branch of a result type.  The codecs the
    module calls ([str.encode], [bytes.decode], [base64.b64encode],
    [base64.b64decode], [hashlib.md5], [str] of an integer) are written
    out so that every function below can be run on concrete inputs. *)

From Stdlib Require Import NArith ZArith List Lia Bool String Ascii.
From Stdlib.Strings Require Import Byte.
From Stdlib Require Import DecimalString DecimalZ DecimalPos.
From Stdlib Require Import Sorting.Sorted Sorting.Permutation.
Import ListNotations.

Local Open Scope N_scope.

Ltac Zify.zify_post_hook ::= Z.to_euclidean_division_equations.

(** ** Python values *)

(** [bytes]: an immutable sequence of octets. *)
Definition bytes := list byte.

(** [str]: a sequence of code points in [range(0x110000)]. *)
Definition pystr := list N.

(** A string literal of the source, as a [str]. *)
Definition lit (s : string) : pystr :=
  map N_of_ascii (list_ascii_of_string s).

(** The exception classes that the module raises or lets through. *)
Inductive exn : Type :=
| TamperedMessageError            (* crypto.TamperedMessageError *)
| ValueError (msg : pystr)        (* ValueError(msg) *)
| BinasciiError                   (* binascii.Error *)
| UnicodeEncodeError
| UnicodeDecodeError.

Inductive result (A : Type) : Type :=
| Ok (a : A)
| Raise (e : exn).

Arguments Ok {A} a.
Arguments Raise {A} e.

Definition bind {A B} (r : result A) (k : A -> result B) : result B :=
  match r with
  | Ok a => k a
  | Raise e => Raise e
  end.

Notation "x <- r ;; k" := (bind r (fun x => k))
  (at level 61, r at next level, right associativity).

(** The octet with value [n mod 256]. *)
Definition byte_of_N (n : N) : byte :=
  match Byte.of_N (n mod 256) with
  | Some b => b
  | None => x00
  end.

(** ** [str.encode("utf-8")] and [bytes.decode("utf-8")], strict errors *)

Definition is_surrogate (c : N) : bool := (0xD800 <=? c) && (c <=? 0xDFFF).

Definition utf8_encode_char (c : N) : result bytes :=
  if c <? 0x80 then Ok [byte_of_N c]
  else if c <? 0x800 then
    Ok [byte_of_N (0xC0 + c / 64); byte_of_N (0x80 + c mod 64)]
  else if c <? 0x10000 then
    if is_surrogate c then Raise UnicodeEncodeError
    else Ok [byte_of_N (0xE0 + c / 4096);
             byte_of_N (0x80 + (c / 64) mod 64);
             byte_of_N (0x80 + c mod 64)]
  else if c <? 0x110000 then
    Ok [byte_of_N (0xF0 + c / 262144);
        byte_of_N (0x80 + (c / 4096) mod 64);
        byte_of_N (0x80 + (c / 64) mod 64);
        byte_of_N (0x80 + c mod 64)]
  else Raise UnicodeEncodeError.

Fixpoint str_encode (s : pystr) : result bytes :=
  match s with
  | [] => Ok []
  | c :: s' =>
      b <- utf8_encode_char c ;;
      bs <- str_encode s' ;;
      Ok (b ++ bs)
  end.

(** A continuation octet, [0x80 .. 0xBF]. *)
Definition is_cont (n : N) : bool := (0x80 <=? n) && (n <=? 0xBF).

(** The range allowed for the octet after a three-octet lead [n0]:
    no overlong form after [0xE0], no surrogate after [0xED]. *)
Definition second_of_3 (n0 n1 : N) : bool :=
  if n0 =? 0xE0 then (0xA0 <=? n1) && (n1 <=? 0xBF)
  else if n0 =? 0xED then (0x80 <=? n1) && (n1 <=? 0x9F)
  else is_cont n1.

(** The range allowed for the octet after a four-octet lead [n0]:
    no overlong form after [0xF0], nothing above U+10FFFF after [0xF4]. *)
Definition second_of_4 (n0 n1 : N) : bool :=
  if n0 =? 0xF0 then (0x90 <=? n1) && (n1 <=? 0xBF)
  else if n0 =? 0xF4 then (0x80 <=? n1) && (n1 <=? 0x8F)
  else is_cont n1.

Fixpoint bytes_decode (bs : bytes) : result pystr :=
  match bs with
  | [] => Ok []
  | b0 :: r0 =>
      let n0 := Byte.to_N b0 in
      if n0 <? 0x80 then
        s <- bytes_decode r0 ;; Ok (n0 :: s)
      else if n0 <? 0xC2 then Raise UnicodeDecodeError
      else if n0 <? 0xE0 then
        match r0 with
        | b1 :: r1 =>
            let n1 := Byte.to_N b1 in
            if is_cont n1 then
              s <- bytes_decode r1 ;;
              Ok (((n0 - 0xC0) * 64 + (n1 - 0x80)) :: s)
            else Raise UnicodeDecodeError
        | _ => Raise UnicodeDecodeError
        end
      else if n0 <? 0xF0 then
        match r0 with
        | b1 :: b2 :: r2 =>
            let n1 := Byte.to_N b1 in
            let n2 := Byte.to_N b2 in
            if second_of_3 n0 n1 && is_cont n2 then
              s <- bytes_decode r2 ;;
              Ok (((n0 - 0xE0) * 4096 + (n1 - 0x80) * 64 + (n2 - 0x80)) :: s)
            else Raise UnicodeDecodeError
        | _ => Raise UnicodeDecodeError
        end
      else if n0 <? 0xF5 then
        match r0 with
        | b1 :: b2 :: b3 :: r3 =>
            let n1 := Byte.to_N b1 in
            let n2 := Byte.to_N b2 in
            let n3 := Byte.to_N b3 in
            if second_of_4 n0 n1 && is_cont n2 && is_cont n3 then
              s <- bytes_decode r3 ;;
              Ok (((n0 - 0xF0) * 262144 + (n1 - 0x80) * 4096
                   + (n2 - 0x80) * 64 + (n3 - 0x80)) :: s)
            else Raise UnicodeDecodeError
        | _ => Raise UnicodeDecodeError
        end
      else Raise UnicodeDecodeError
  end.

(** The code points of an ASCII byte string. *)
Definition ascii_str (bs : bytes) : pystr := map Byte.to_N bs.

Definition is_ascii (bs : bytes) : Prop :=
  Forall (fun b => Byte.to_N b < 0x80) bs.

(** ** [base64.b64encode] and [base64.b64decode] *)

(** [table_b2a_base64]: the character of a six-bit value. *)
Definition b64_char (v : N) : byte :=
  if v <? 26 then byte_of_N (65 + v)
  else if v <? 52 then byte_of_N (97 + (v - 26))
  else if v <? 62 then byte_of_N (48 + (v - 52))
  else if v =? 62 then "+"%byte
  else "/"%byte.

(** [binascii.b2a_base64(s, newline=False)]. *)
Fixpoint b64encode (s : bytes) : bytes :=
  match s with
  | [] => []
  | [a] =>
      let a := Byte.to_N a in
      [b64_char (a / 4); b64_char ((a mod 4) * 16); "="%byte; "="%byte]
  | [a; b] =>
      let a := Byte.to_N a in
      let b := Byte.to_N b in
      [b64_char (a / 4); b64_char ((a mod 4) * 16 + b / 16);
       b64_char ((b mod 16) * 4); "="%byte]
  | a :: b :: c :: rest =>
      let a := Byte.to_N a in
      let b := Byte.to_N b in
      let c := Byte.to_N c in
      b64_char (a / 4) :: b64_char ((a mod 4) * 16 + b / 16) ::
      b64_char ((b mod 16) * 4 + c / 64) :: b64_char (c mod 64) ::
      b64encode rest
  end.

(** [table_a2b_base64]: the six-bit value of a character of the
    alphabet, [None] for any other octet. *)
Definition b64_val (ch : byte) : option N :=
  let n := Byte.to_N ch in
  if (65 <=? n) && (n <=? 90) then Some (n - 65)
  else if (97 <=? n) && (n <=? 122) then Some (n - 97 + 26)
  else if (48 <=? n) && (n <=? 57) then Some (n - 48 + 52)
  else if n =? 43 then Some 62
  else if n =? 47 then Some 63
  else None.

(** The loop of [binascii.a2b_base64] without strict mode, which is what
    [base64.b64decode(s)] runs when [validate] is false: octets outside
    the alphabet are skipped, a complete pad sequence ends the input,
    and an unfinished quad at the end is a [binascii.Error]. *)
Fixpoint a2b_loop (s : bytes) (quad_pos leftchar pads : N) : result bytes :=
  match s with
  | [] => if quad_pos =? 0 then Ok [] else Raise BinasciiError
  | ch :: s' =>
      if Byte.eqb ch "="%byte then
        if 2 <=? quad_pos then
          if 4 <=? quad_pos + (pads + 1) then Ok []
          else a2b_loop s' quad_pos leftchar (pads + 1)
        else a2b_loop s' quad_pos leftchar pads
      else
        match b64_val ch with
        | None => a2b_loop s' quad_pos leftchar pads
        | Some v =>
            if quad_pos =? 0 then a2b_loop s' 1 v 0
            else if quad_pos =? 1 then
              r <- a2b_loop s' 2 (v mod 16) 0 ;;
              Ok (byte_of_N (leftchar * 4 + v / 16) :: r)
            else if quad_pos =? 2 then
              r <- a2b_loop s' 3 (v mod 4) 0 ;;
              Ok (byte_of_N (leftchar * 16 + v / 4) :: r)
            else
              r <- a2b_loop s' 0 0 0 ;;
              Ok (byte_of_N (leftchar * 64 + v) :: r)
        end
  end.

Definition b64decode (s : bytes) : result bytes := a2b_loop s 0 0 0.

(** ** [hashlib.md5] *)

Definition w32 (x : N) : N := x mod 4294967296.

Definition rotl32 (x c : N) : N :=
  w32 (N.lor (N.shiftl x c) (N.shiftr x (32 - c))).

Definition not32 (x : N) : N := N.lxor (w32 x) 0xFFFFFFFF.

Definition md5_K : list N :=
  [0xd76aa478; 0xe8c7b756; 0x242070db; 0xc1bdceee;
   0xf57c0faf; 0x4787c62a; 0xa8304613; 0xfd469501;
   0x698098d8; 0x8b44f7af; 0xffff5bb1; 0x895cd7be;
   0x6b901122; 0xfd987193; 0xa679438e; 0x49b40821;
   0xf61e2562; 0xc040b340; 0x265e5a51; 0xe9b6c7aa;
   0xd62f105d; 0x02441453; 0xd8a1e681; 0xe7d3fbc8;
   0x21e1cde6; 0xc33707d6; 0xf4d50d87; 0x455a14ed;
   0xa9e3e905; 0xfcefa3f8; 0x676f02d9; 0x8d2a4c8a;
   0xfffa3942; 0x8771f681; 0x6d9d6122; 0xfde5380c;
   0xa4beea44; 0x4bdecfa9; 0xf6bb4b60; 0xbebfbc70;
   0x289b7ec6; 0xeaa127fa; 0xd4ef3085; 0x04881d05;
   0xd9d4d039; 0xe6db99e5; 0x1fa27cf8; 0xc4ac5665;
   0xf4292244; 0x432aff97; 0xab9423a7; 0xfc93a039;
   0x655b59c3; 0x8f0ccc92; 0xffeff47d; 0x85845dd1;
   0x6fa87e4f; 0xfe2ce6e0; 0xa3014314; 0x4e0811a1;
   0xf7537e82; 0xbd3af235; 0x2ad7d2bb; 0xeb86d391].

Definition md5_S : list N :=
  [7; 12; 17; 22; 7; 12; 17; 22; 7; 12; 17; 22; 7; 12; 17; 22;
   5; 9; 14; 20; 5; 9; 14; 20; 5; 9; 14; 20; 5; 9; 14; 20;
   4; 11; 16; 23; 4; 11; 16; 23; 4; 11; 16; 23; 4; 11; 16; 23;
   6; 10; 15; 21; 6; 10; 15; 21; 6; 10; 15; 21; 6; 10; 15; 21].

(** The chaining value [(A, B, C, D)]. *)
Definition md5_state : Type := (N * N * N * N)%type.

Definition md5_init : md5_state :=
  (0x67452301, 0xefcdab89, 0x98badcfe, 0x10325476).

(** Step [i] of the compression function on the block words [M]. *)
Definition md5_step (M : list N) (st : md5_state) (i : N) : md5_state :=
  let '(a, b, c, d) := st in
  let '(f, g) :=
    if i <? 16 then (N.lor (N.land b c) (N.land (not32 b) d), i)
    else if i <? 32 then
      (N.lor (N.land d b) (N.land (not32 d) c), (5 * i + 1) mod 16)
    else if i <? 48 then (N.lxor b (N.lxor c d), (3 * i + 5) mod 16)
    else (N.lxor c (N.lor b (not32 d)), (7 * i) mod 16) in
  let f' := w32 (f + a + nth (N.to_nat i) md5_K 0 + nth (N.to_nat g) M 0) in
  (d, w32 (b + rotl32 f' (nth (N.to_nat i) md5_S 0)), b, c).

(** A little-endian 32-bit word from four octets. *)
Definition le_word (b0 b1 b2 b3 : byte) : N :=
  Byte.to_N b0 + 256 * Byte.to_N b1 + 65536 * Byte.to_N b2
  + 16777216 * Byte.to_N b3.

Fixpoint le_words (bs : bytes) : list N :=
  match bs with
  | b0 :: b1 :: b2 :: b3 :: rest => le_word b0 b1 b2 b3 :: le_words rest
  | _ => []
  end.

Definition le_bytes (x : N) : bytes :=
  [byte_of_N x; byte_of_N (x / 256); byte_of_N (x / 65536);
   byte_of_N (x / 16777216)].

Definition md5_block (st : md5_state) (block : bytes) : md5_state :=
  let M := le_words block in
  let '(a0, b0, c0, d0) := st in
  let '(a, b, c, d) :=
    fold_left (md5_step M) (map N.of_nat (seq 0 64)) st in
  (w32 (a0 + a), w32 (b0 + b), w32 (c0 + c), w32 (d0 + d)).

(** The message followed by [0x80], zeros up to 56 modulo 64, and the
    bit length as a little-endian 64-bit integer. *)
Definition md5_pad (m : bytes) : bytes :=
  let len := N.of_nat (List.length m) in
  let zeros := N.to_nat ((119 - len mod 64) mod 64) in
  let bits := (8 * len) mod 18446744073709551616 in
  m ++ [x80] ++ repeat x00 zeros
    ++ le_bytes bits ++ le_bytes (bits / 4294967296).

Fixpoint md5_blocks (fuel : nat) (st : md5_state) (bs : bytes) : md5_state :=
  match fuel, bs with
  | O, _ => st
  | _, [] => st
  | S fuel', _ => md5_blocks fuel' (md5_block st (firstn 64 bs)) (skipn 64 bs)
  end.

(** [hashlib.md5(m).digest()]. *)
Definition md5 (m : bytes) : bytes :=
  let p := md5_pad m in
  let '(a, b, c, d) := md5_blocks (List.length p) md5_init p in
  le_bytes a ++ le_bytes b ++ le_bytes c ++ le_bytes d.

(** The module's [DIGEST = hashlib.md5] and [DIGEST_LEN = 16]. *)
Definition DIGEST : bytes -> bytes := md5.
Definition DIGEST_LEN : nat := 16.

(** HMAC (RFC 2104) over MD5: the keyed hash of Python's
    [hmac.new(key, msg, hashlib.md5).digest()]. *)
Definition xor_pad (pad : N) (key : bytes) : bytes :=
  map (fun b => byte_of_N (N.lxor (Byte.to_N b) pad)) key.

Definition hmac_md5 (key msg : bytes) : bytes :=
  let k := if (64 <? List.length key)%nat then md5 key else key in
  let k := k ++ repeat x00 (64 - List.length k) in
  md5 (xor_pad 0x5c k ++ md5 (xor_pad 0x36 k ++ msg)).

(** The octets of an ASCII literal. *)
Definition blit (s : string) : bytes := list_byte_of_string s.

Definition hex_digit (n : N) : byte :=
  if n <? 10 then byte_of_N (48 + n) else byte_of_N (87 + n).

(** [bytes.hex()]. *)
Definition hex (bs : bytes) : bytes :=
  flat_map (fun b => [hex_digit (Byte.to_N b / 16);
                      hex_digit (Byte.to_N b mod 16)]) bs.

(** ** [str(n)] for an integer and [%]-formatting *)

(** [str(z)] for an [int]: its decimal digits, [-] first when negative. *)
Definition py_str_int (z : Z) : pystr :=
  lit (NilZero.string_of_int (Z.to_int z)).

(** A string of ASCII characters only. *)
Definition ascii_only (s : pystr) : Prop := Forall (fun c => c < 0x80) s.

(** [str(z).encode("utf-8")]. *)
Definition int_bytes (z : Z) : bytes := map byte_of_N (py_str_int z).

(** ** [botogram.crypto] *)

(** Modelled from the spec: [crypto.compare], the constant-time
    comparison of two byte strings, whose source is not in
    [callbacks.py]; it answers whether the two are equal. *)
Definition compare (a b : bytes) : bool :=
  if list_eq_dec Byte.byte_eq_dec a b then true else false.

(** A chat, of which the module reads [chat.id]. *)
Record Chat : Type := { chat_id : Z }.

(** The values a hook may return. *)
Inductive pyval : Type :=
| PyNone
| PyBool (b : bool)
| PyInt (z : Z)
| PyStr (s : pystr).

(** Truth value testing, [bool(v)]. *)
Definition truthy (v : pyval) : bool :=
  match v with
  | PyNone => false
  | PyBool b => b
  | PyInt z => negb (z =? 0)%Z
  | PyStr s => match s with [] => false | _ => true end
  end.

(** [v is True]. *)
Definition is_True (v : pyval) : bool :=
  match v with
  | PyBool true => true
  | _ => false
  end.

Inductive level : Type := WARN | DEBUG.

(** [try: r except binascii.Error: raise crypto.TamperedMessageError]. *)
Definition except_binascii {A} (r : result A) : result A :=
  match r with
  | Raise BinasciiError => Raise TamperedMessageError
  | other => other
  end.

Fixpoint mapM {A B} (f : A -> result B) (l : list A) : result (list B) :=
  match l with
  | [] => Ok []
  | x :: l' => y <- f x ;; ys <- mapM f l' ;; Ok (y :: ys)
  end.

Section Callbacks.

(** The bot, of which [callbacks.py] only passes the object on to
    [crypto.get_hmac] and to the hooks. *)
Variable Bot : Type.

(** [crypto.get_hmac(bot, data)]: the keyed digest under the bot's
    secret key.  Its source is not in [callbacks.py]; it is a parameter
    of the development. *)
Variable get_hmac : Bot -> bytes -> bytes.

(** *** Callback data *)

Definition get_signature (bot : Bot) (chat : Chat) (name data : bytes)
  : result bytes :=
  chat_id <- str_encode (py_str_int (chat_id chat)) ;;
  Ok (get_hmac bot (name ++ [x00] ++ chat_id ++ [x00] ++ data)).

(** The byte string that [get_signature] hands to [crypto.get_hmac]. *)
Definition signed_message (name : bytes) (chat : Chat) (data : bytes)
  : bytes :=
  name ++ [x00] ++ int_bytes (chat_id chat) ++ [x00] ++ data.

Definition hashed_callback_name (name : pystr) : result bytes :=
  name <- str_encode name ;;
  Ok (firstn 8 (DIGEST name)).

(** [if data is None: data = ""]. *)
Definition or_empty (data : option pystr) : pystr :=
  match data with
  | None => lit ""
  | Some d => d
  end.

Definition too_big (n : nat) : pystr :=
  lit "The provided data is too big (" ++ py_str_int (Z.of_nat n)
  ++ lit " bytes), try to reduce it to 32 bytes".

Definition get_callback_data (bot : Bot) (chat : Chat) (name : pystr)
    (data : option pystr) : result pystr :=
  name <- hashed_callback_name name ;;
  let data := or_empty data in
  data <- str_encode data ;;
  if (32 <? List.length data)%nat then
    Raise (ValueError (too_big (List.length data)))
  else
    signature <- get_signature bot chat name data ;;
    bytes_decode (b64encode (signature ++ name) ++ data).

Definition parse_callback_data (bot : Bot) (chat : Chat) (raw : pystr)
  : result (bytes * option pystr) :=
  raw <- str_encode raw ;;
  if (List.length raw <? 32)%nat then Raise TamperedMessageError
  else
    prelude <- except_binascii (b64decode (firstn 32 raw)) ;;
    let signature := firstn 16 prelude in
    let name := skipn 16 prelude in
    let data := skipn 32 raw in
    correct <- get_signature bot chat name data ;;
    if negb (compare correct signature) then Raise TamperedMessageError
    else
      match data with
      | [] => Ok (name, None)
      | _ => d <- bytes_decode data ;; Ok (name, Some d)
      end.

(** *** Inline keyboards *)

(** The value of a button's field: a plain value, or the closure
    [generate_callback_data] with the [callback] and [data] it captured. *)
Inductive field : Type :=
| Static (v : pystr)
| Callable (callback : pystr) (data : option pystr).

(** A button: a dict, kept as its items in insertion order. *)
Definition button : Type := list (string * field).

(** A button as sent: every field holds a value. *)
Definition wire_button : Type := list (string * pystr).

Record ButtonsRow : Type := { _content : list button }.

(** [ButtonsRow()]. *)
Definition new_row : ButtonsRow := {| _content := [] |}.

Definition url (self : ButtonsRow) (label url : pystr) : ButtonsRow :=
  {| _content := _content self
       ++ [[("text"%string, Static label); ("url"%string, Static url)]] |}.

Definition callback (self : ButtonsRow) (label callback : pystr)
    (data : option pystr) : ButtonsRow :=
  {| _content := _content self
       ++ [[("text"%string, Static label);
            ("callback_data"%string, Callable callback data)]] |}.

Definition switch_inline_query (self : ButtonsRow) (label query : pystr)
    (current_chat : bool) : ButtonsRow :=
  if current_chat then
    {| _content := _content self
         ++ [[("text"%string, Static label);
              ("switch_inline_query_current_chat"%string, Static query)]] |}
  else
    {| _content := _content self
         ++ [[("text"%string, Static label);
              ("switch_inline_query"%string, Static query)]] |}.

(** What [ctx()] gives while a message is being sent. *)
Record Context : Type := {
  ctx_bot : Bot;
  ctx_chat : Chat;
  component_name : pystr
}.

(** The closure [generate_callback_data] of [ButtonsRow.callback]. *)
Definition generate_callback_data (c : Context) (callback : pystr)
    (data : option pystr) : result pystr :=
  let name := component_name c ++ lit ":" ++ callback in
  get_callback_data (ctx_bot c) (ctx_chat c) name data.

(** [new[key] = value()] for a callable value. *)
Definition resolve (c : Context) (kv : string * field)
  : result (string * pystr) :=
  match snd kv with
  | Static v => Ok (fst kv, v)
  | Callable cb data =>
      v <- generate_callback_data c cb data ;; Ok (fst kv, v)
  end.

(** [list(row._get_content())]. *)
Definition _get_content (c : Context) (self : ButtonsRow)
  : result (list wire_button) :=
  mapM (fun item => mapM (resolve c) item) (_content self).

(** [Buttons._rows]: a dict from row index to row, kept as its items in
    insertion order. *)
Record Buttons : Type := { _rows : list (Z * ButtonsRow) }.

(** [buttons()]. *)
Definition buttons : Buttons := {| _rows := [] |}.

Fixpoint lookup (index : Z) (rows : list (Z * ButtonsRow))
  : option ButtonsRow :=
  match rows with
  | [] => None
  | (i, row) :: rows' =>
      if (i =? index)%Z then Some row else lookup index rows'
  end.

(** [Buttons.__getitem__]: the keyboard after the access, and the row. *)
Definition __getitem__ (self : Buttons) (index : Z) : Buttons * ButtonsRow :=
  match lookup index (_rows self) with
  | Some row => (self, row)
  | None => ({| _rows := _rows self ++ [(index, new_row)] |}, new_row)
  end.

(** The row object at [index] replaced by its state after a method call. *)
Fixpoint store (index : Z) (row : ButtonsRow) (rows : list (Z * ButtonsRow))
  : list (Z * ButtonsRow) :=
  match rows with
  | [] => []
  | (i, r) :: rows' =>
      if (i =? index)%Z then (i, row) :: rows'
      else (i, r) :: store index row rows'
  end.

(** [self[index].m(...)]: a method [m] called on the row at [index]. *)
Definition on_row (self : Buttons) (index : Z)
    (m : ButtonsRow -> ButtonsRow) : Buttons :=
  let (kb, row) := __getitem__ self index in
  {| _rows := store index (m row) (_rows kb) |}.

(** [sorted(items, key=lambda i: i[0])]: a stable sort on the index. *)
Fixpoint insert_item (x : Z * ButtonsRow) (l : list (Z * ButtonsRow))
  : list (Z * ButtonsRow) :=
  match l with
  | [] => [x]
  | y :: l' =>
      if (fst x <=? fst y)%Z then x :: y :: l' else y :: insert_item x l'
  end.

Definition sorted (items : list (Z * ButtonsRow)) : list (Z * ButtonsRow) :=
  fold_right insert_item [] items.

Record attachment : Type := { inline_keyboard : list (list wire_button) }.

Definition _serialize_attachment (c : Context) (self : Buttons)
  : result attachment :=
  rows <- mapM (fun ir => _get_content c (snd ir)) (sorted (_rows self)) ;;
  Ok {| inline_keyboard := rows |}.

(** One statement of the code that fills a keyboard [kb]. *)
Inductive step : Type :=
| Access (index : Z)                           (* kb[index] *)
| Url (index : Z) (label link : pystr)         (* kb[index].url(...) *)
| Callback (index : Z) (label cb : pystr) (data : option pystr)
| SwitchInlineQuery (index : Z) (label query : pystr) (current_chat : bool).

Definition step_index (s : step) : Z :=
  match s with
  | Access i | Url i _ _ | Callback i _ _ _ | SwitchInlineQuery i _ _ _ => i
  end.

Definition run_step (kb : Buttons) (s : step) : Buttons :=
  match s with
  | Access i => fst (__getitem__ kb i)
  | Url i label link => on_row kb i (fun row => url row label link)
  | Callback i label cb data =>
      on_row kb i (fun row => callback row label cb data)
  | SwitchInlineQuery i label query current_chat =>
      on_row kb i (fun row => switch_inline_query row label query current_chat)
  end.

(** The keyboard after [kb = buttons()] and the statements [steps]. *)
Definition build (steps : list step) : Buttons :=
  fold_left run_step steps buttons.

(** The order of [sorted]: by index. *)
Definition index_le (a b : Z * ButtonsRow) : Prop := (fst a <= fst b)%Z.

(** The indices of the rows that [_serialize_attachment] emits, in the
    order it emits them. *)
Definition emitted_indices (kb : Buttons) : list Z :=
  map fst (sorted (_rows kb)).

(** *** The dispatcher *)

Record Update : Type := {
  update_id : Z;
  chat : Chat;          (* update.callback_query.message.chat *)
  _data : pystr         (* update.callback_query._data *)
}.

Record Hook : Type := {
  hook_name : pystr;
  call : Bot -> Update -> bytes -> option pystr -> result pyval
}.

Record Chains : Type := { callbacks : list Hook }.

(** What [process] does that can be seen from outside: a line sent to
    [bot.logger], or a call of a hook with its arguments. *)
Inductive event : Type :=
| Log (l : level) (msg : pystr)
| Called (hook : Hook) (bot : Bot) (update : Update) (name : bytes)
    (data : option pystr).

Definition msg_tampered (u : Update) : pystr :=
  lit "The user tampered with the #" ++ py_str_int (update_id u)
  ++ lit " update's data. Skipped it.".

Definition msg_processing (u : Update) (h : Hook) : pystr :=
  lit "Processing update #" ++ py_str_int (update_id u)
  ++ lit " with the hook " ++ hook_name h.

Definition msg_processed (u : Update) (h : Hook) : pystr :=
  lit "Update #" ++ py_str_int (update_id u)
  ++ lit " was just processed by the " ++ hook_name h ++ lit " hook".

Definition msg_unclaimed (u : Update) : pystr :=
  lit "No hook actually processed the #" ++ py_str_int (update_id u)
  ++ lit " update.".

(** The [for hook in chains["callbacks"]] loop of [process] and the
    line after it. *)
Fixpoint run_hooks (bot : Bot) (update : Update) (name : bytes)
    (data : option pystr) (hooks : list Hook) : list event * result unit :=
  match hooks with
  | [] => ([Log DEBUG (msg_unclaimed update)], Ok tt)
  | hook :: rest =>
      let before :=
        [Log DEBUG (msg_processing update hook);
         Called hook bot update name data] in
      match call hook bot update name data with
      | Raise e => (before, Raise e)
      | Ok result =>
          if is_True result then
            (before ++ [Log DEBUG (msg_processed update hook)], Ok tt)
          else
            let (after, r) := run_hooks bot update name data rest in
            (before ++ after, r)
      end
  end.

Definition process (bot : Bot) (chains : Chains) (update : Update)
  : list event * result unit :=
  let chat := chat update in
  let raw := _data update in
  match parse_callback_data bot chat raw with
  | Raise TamperedMessageError => ([Log WARN (msg_tampered update)], Ok tt)
  | Raise e => ([], Raise e)
  | Ok (name, data) => run_hooks bot update name data (callbacks chains)
  end.

(** The hook calls of a trace, in the order they were made. *)
Fixpoint called (tr : list event) : list event :=
  match tr with
  | [] => []
  | Log _ _ :: tr' => called tr'
  | Called h b u n d :: tr' => Called h b u n d :: called tr'
  end.

(** The hooks that a trace calls, in the order it calls them. *)
Fixpoint hooks_called (tr : list event) : list Hook :=
  match tr with
  | [] => []
  | Log _ _ :: tr' => hooks_called tr'
  | Called h _ _ _ _ :: tr' => h :: hooks_called tr'
  end.

(** The hook answers [True] to the call. *)
Definition handles (h : Hook) (bot : Bot) (update : Update) (name : bytes)
    (data : option pystr) : bool :=
  match call h bot update name data with
  | Ok v => is_True v
  | Raise _ => false
  end.

End Callbacks.

Arguments get_signature {Bot} get_hmac bot chat name data.
Arguments get_callback_data {Bot} get_hmac bot chat name data.
Arguments parse_callback_data {Bot} get_hmac bot chat raw.
Arguments generate_callback_data {Bot} get_hmac c callback data.
Arguments resolve {Bot} get_hmac c kv.
Arguments _get_content {Bot} get_hmac c self.
Arguments _serialize_attachment {Bot} get_hmac c self.
Arguments run_hooks {Bot} bot update name data hooks.
Arguments process {Bot} get_hmac bot chains update.
Arguments ctx_bot {Bot} c.
Arguments ctx_chat {Bot} c.
Arguments component_name {Bot} c.
Arguments hook_name {Bot} h.
Arguments call {Bot} h bot update name data.
Arguments callbacks {Bot} c.
Arguments called {Bot} tr.
Arguments hooks_called {Bot} tr.
Arguments handles {Bot} h bot update name data.
Arguments msg_processing {Bot} u h.
Arguments msg_processed {Bot} u h.
Arguments Log {Bot} l msg.
Arguments Called {Bot} hook bot update name data.

(** The shape of a token: the base64 text of the signature and the
    hashed name [hn], then the payload [p], whose encoding is [pb]. *)
Definition token {Bot} (get_hmac : Bot -> bytes -> bytes) (bot : Bot)
    (chat : Chat) (hn pb : bytes) (p : pystr) : pystr :=
  ascii_str
    (b64encode (get_hmac bot (signed_message hn chat pb) ++ hn)) ++ p.

(** ** A concrete bot

    A bot that is its secret key, signing with HMAC-MD5: the instance at
    which the statements below are evaluated. *)

Definition secret : bytes := blit "secret".
Definition chat42 : Chat := {| chat_id := 42 |}.
Definition chat43 : Chat := {| chat_id := 43 |}.

(** The callback [cb] of the component [comp]. *)
Definition comp_cb : pystr := lit "comp:cb".

(** The payload [héllo], and its UTF-8 encoding. *)
Definition hello : pystr := [104; 233; 108; 108; 111].
Definition hello_utf8 : bytes :=
  ["h"%byte; xc3; xa9; "l"%byte; "l"%byte; "o"%byte].

(** Thirty characters that encode to thirty-two bytes: the base64 text
    of a signature and a five-byte name, then [éé]. *)
Definition raw30 : pystr := lit "uJWOFBfa4yfxjTSagFnc4GhlbGxv" ++ [233; 233].

(** Thirty-two characters whose thirty-second is [é]: the base64 text
    of a signature and a five-byte name, three skipped characters, and
    the lead octet of [é]; the payload is its other octet. *)
Definition raw_split : pystr :=
  lit "3d/0RpHM77Kf++xWg7Y7pGhlbGxv!!!" ++ [233].

(** An update whose data is the token of [comp:cb] with the payload
    [héllo] for chat 42. *)
Definition update7 : Update :=
  {| update_id := 7;
     chat := chat42;
     _data := lit "qSoGTLXyfOFJggQ698Diqm7Gh7mLI0mGh" ++ [233] ++ lit "llo" |}.

(** The same update after someone changed the payload. *)
Definition update8 : Update :=
  {| update_id := 8;
     chat := chat42;
     _data := lit "qSoGTLXyfOFJggQ698Diqm7Gh7mLI0mGhello" |}.

(** A hook that answers [v] whatever it is called with. *)
Definition answering (name : string) (v : pyval) : Hook bytes :=
  {| hook_name := lit name; call := fun _ _ _ _ => Ok v |}.

(** ** Further definitions *)

(** The bits that [a2b_loop] holds at [quad_pos], waiting for the next
    octet to be complete. *)
Definition held_bits (quad_pos : N) : nat :=
  if quad_pos =? 0 then 0
  else if quad_pos =? 1 then 6
  else if quad_pos =? 2 then 4
  else 2.

(** A string put together from a token [tok] that was issued in the chat
    [c]: the first 28 characters of the token, four characters that are
    not of the base64 alphabet, then [str(c.id)], a NUL and the payload
    of the token. *)
Definition replayed (tok : pystr) (c : Chat) : pystr :=
  firstn 28 tok ++ lit "!!!!" ++ py_str_int (chat_id c) ++ [0]
  ++ skipn 32 tok.

(** The method that a statement calls on its row. *)
Definition step_method (s : step) : ButtonsRow -> ButtonsRow :=
  match s with
  | Access _ => fun row => row
  | Url _ label link => fun row => url row label link
  | Callback _ label cb data => fun row => callback row label cb data
  | SwitchInlineQuery _ label query current_chat =>
      fun row => switch_inline_query row label query current_chat
  end.

(** A fresh row after those of the statements that name [index], in
    their order. *)
Definition row_after (steps : list step) (index : Z) : ButtonsRow :=
  fold_left
    (fun row s => if (step_index s =? index)%Z then step_method s row else row)
    steps new_row.

(** The statement adds a callback button. *)
Definition is_callback (s : step) : bool :=
  match s with
  | Callback _ _ _ _ => true
  | _ => false
  end.

(** A button none of whose fields is a closure, as it is sent. *)
Definition static_button (b : button) : wire_button :=
  flat_map (fun kv => match snd kv with
                      | Static v => [(fst kv, v)]
                      | Callable _ _ => []
                      end) b.

(** The hook returns, and not [True]. *)
Definition passes {Bot} (bot : Bot) (update : Update) (name : bytes)
    (data : option pystr) (g : Hook Bot) : Prop :=
  exists v, call g bot update name data = Ok v /\ is_True v = false.

(** The trace of [process] over hooks that are called and do not end
    the scan. *)
Definition passing_trace {Bot} (bot : Bot) (update : Update) (name : bytes)
    (data : option pystr) (hooks : list (Hook Bot)) : list (event Bot) :=
  flat_map (fun g => [Log DEBUG (msg_processing update g);
                      Called g bot update name data]) hooks.

(** A callback of the component [comp] whose hashed name ends in a NUL
    and the two characters [83]. *)
Definition comp_cb303655 : pystr := lit "comp:cb303655".
Definition chat83 : Chat := {| chat_id := 83 |}.

(** ** Tactics *)

(** Decides the comparisons of a goal on [N] one by one. *)
Ltac split_tests :=
  repeat match goal with
  | |- context [?a <? ?b] => destruct (N.ltb_spec a b); try lia
  | |- context [?a <=? ?b] => destruct (N.leb_spec a b); try lia
  | |- context [?a =? ?b] => destruct (N.eqb_spec a b); try lia
  end.

(** * Proofs *)

(** ** Octets *)

Lemma to_N_lt_256 (b : byte) : Byte.to_N b < 256.
Proof. pose proof (Byte.to_N_bounded b). lia. Qed.

Lemma to_N_byte_of_N (n : N) : n < 256 -> Byte.to_N (byte_of_N n) = n.
Proof.
  intros Hn. unfold byte_of_N.
  rewrite N.mod_small by assumption.
  destruct (Byte.of_N n) as [b|] eqn:E.
  - now apply Byte.to_of_N.
  - apply Byte.of_N_None_iff in E. lia.
Qed.

Lemma byte_of_N_to_N (b : byte) : byte_of_N (Byte.to_N b) = b.
Proof.
  unfold byte_of_N.
  rewrite N.mod_small by apply to_N_lt_256.
  now rewrite Byte.of_to_N.
Qed.

Lemma to_N_inj (a b : byte) : Byte.to_N a = Byte.to_N b -> a = b.
Proof.
  intros H. rewrite <- (byte_of_N_to_N a), <- (byte_of_N_to_N b).
  now rewrite H.
Qed.

(** ** The result monad *)

Lemma bind_Ok {A B} (r : result A) (k : A -> result B) (b : B) :
  bind r k = Ok b -> exists a, r = Ok a /\ k a = Ok b.
Proof. destruct r as [a|e]; simpl; [eauto | discriminate]. Qed.

Lemma mapM_Ok_length {A B} (f : A -> result B) (l : list A) (l' : list B) :
  mapM f l = Ok l' -> List.length l' = List.length l.
Proof.
  revert l'. induction l as [|x l IH]; simpl; intros l' H.
  - now inversion H.
  - destruct (f x) as [y|]; simpl in H; [|discriminate].
    destruct (mapM f l) as [ys|]; simpl in H; [|discriminate].
    inversion H; subst. simpl. now rewrite (IH ys).
Qed.

(** ** UTF-8 *)

(** One unfolding of the decoder. *)
Lemma bytes_decode_cons (b0 : byte) (r0 : bytes) :
  bytes_decode (b0 :: r0) =
  let n0 := Byte.to_N b0 in
  if n0 <? 0x80 then s <- bytes_decode r0 ;; Ok (n0 :: s)
  else if n0 <? 0xC2 then Raise UnicodeDecodeError
  else if n0 <? 0xE0 then
    match r0 with
    | b1 :: r1 =>
        let n1 := Byte.to_N b1 in
        if is_cont n1 then
          s <- bytes_decode r1 ;;
          Ok (((n0 - 0xC0) * 64 + (n1 - 0x80)) :: s)
        else Raise UnicodeDecodeError
    | _ => Raise UnicodeDecodeError
    end
  else if n0 <? 0xF0 then
    match r0 with
    | b1 :: b2 :: r2 =>
        let n1 := Byte.to_N b1 in
        let n2 := Byte.to_N b2 in
        if second_of_3 n0 n1 && is_cont n2 then
          s <- bytes_decode r2 ;;
          Ok (((n0 - 0xE0) * 4096 + (n1 - 0x80) * 64 + (n2 - 0x80)) :: s)
        else Raise UnicodeDecodeError
    | _ => Raise UnicodeDecodeError
    end
  else if n0 <? 0xF5 then
    match r0 with
    | b1 :: b2 :: b3 :: r3 =>
        let n1 := Byte.to_N b1 in
        let n2 := Byte.to_N b2 in
        let n3 := Byte.to_N b3 in
        if second_of_4 n0 n1 && is_cont n2 && is_cont n3 then
          s <- bytes_decode r3 ;;
          Ok (((n0 - 0xF0) * 262144 + (n1 - 0x80) * 4096
               + (n2 - 0x80) * 64 + (n3 - 0x80)) :: s)
        else Raise UnicodeDecodeError
    | _ => Raise UnicodeDecodeError
    end
  else Raise UnicodeDecodeError.
Proof. reflexivity. Qed.

Section DecodeSequences.

Variables (rest : bytes) (s : pystr).
Hypothesis Hrest : bytes_decode rest = Ok s.

Lemma decode_1 (b0 : byte) :
  Byte.to_N b0 < 0x80 ->
  bytes_decode (b0 :: rest) = Ok (Byte.to_N b0 :: s).
Proof.
  intros H0. rewrite bytes_decode_cons. cbv zeta.
  split_tests. now rewrite Hrest.
Qed.

Lemma decode_2 (b0 b1 : byte) (c : N) :
  Byte.to_N b0 = 0xC0 + c / 64 ->
  Byte.to_N b1 = 0x80 + c mod 64 ->
  0x80 <= c < 0x800 ->
  bytes_decode (b0 :: b1 :: rest) = Ok (c :: s).
Proof.
  intros H0 H1 Hc. rewrite bytes_decode_cons. cbv zeta.
  rewrite H0, H1. unfold is_cont. split_tests.
  rewrite Hrest. unfold bind, andb. do 2 f_equal. lia.
Qed.

Lemma decode_3 (b0 b1 b2 : byte) (c : N) :
  Byte.to_N b0 = 0xE0 + c / 4096 ->
  Byte.to_N b1 = 0x80 + (c / 64) mod 64 ->
  Byte.to_N b2 = 0x80 + c mod 64 ->
  0x800 <= c < 0x10000 ->
  is_surrogate c = false ->
  bytes_decode (b0 :: b1 :: b2 :: rest) = Ok (c :: s).
Proof.
  intros H0 H1 H2 Hc Hs. rewrite bytes_decode_cons. cbv zeta.
  rewrite H0, H1, H2. unfold is_surrogate in Hs.
  assert (c < 0xD800 \/ 0xDFFF < c) as Hc'.
  { destruct (N.leb_spec 0xD800 c); destruct (N.leb_spec c 0xDFFF);
      simpl in Hs; try discriminate; lia. }
  unfold second_of_3, is_cont. split_tests;
    rewrite Hrest; unfold bind, andb; do 2 f_equal; lia.
Qed.

Lemma decode_4 (b0 b1 b2 b3 : byte) (c : N) :
  Byte.to_N b0 = 0xF0 + c / 262144 ->
  Byte.to_N b1 = 0x80 + (c / 4096) mod 64 ->
  Byte.to_N b2 = 0x80 + (c / 64) mod 64 ->
  Byte.to_N b3 = 0x80 + c mod 64 ->
  0x10000 <= c < 0x110000 ->
  bytes_decode (b0 :: b1 :: b2 :: b3 :: rest) = Ok (c :: s).
Proof.
  intros H0 H1 H2 H3 Hc. rewrite bytes_decode_cons. cbv zeta.
  rewrite H0, H1, H2, H3.
  unfold second_of_4, is_cont. split_tests;
    rewrite Hrest; unfold bind, andb; do 2 f_equal; lia.
Qed.

End DecodeSequences.

Lemma decode_encode_char (c : N) (bs rest : bytes) (s : pystr) :
  utf8_encode_char c = Ok bs ->
  bytes_decode rest = Ok s ->
  bytes_decode (bs ++ rest) = Ok (c :: s).
Proof.
  unfold utf8_encode_char. intros Henc Hrest.
  destruct (N.ltb_spec c 0x80).
  { injection Henc as <-.
    rewrite <- (to_N_byte_of_N c) at 2 by lia.
    apply decode_1; [assumption|]. rewrite to_N_byte_of_N; lia. }
  destruct (N.ltb_spec c 0x800).
  { injection Henc as <-.
    apply decode_2; try assumption; try lia; apply to_N_byte_of_N; lia. }
  destruct (N.ltb_spec c 0x10000).
  { destruct (is_surrogate c) eqn:Hs; [discriminate|].
    injection Henc as <-.
    apply decode_3; try assumption; try lia; apply to_N_byte_of_N; lia. }
  destruct (N.ltb_spec c 0x110000); [|discriminate].
  injection Henc as <-.
  apply decode_4; try assumption; try lia; apply to_N_byte_of_N; lia.
Qed.

(** [s.encode("utf-8").decode("utf-8") == s]. *)
Lemma decode_encode (s : pystr) (bs : bytes) :
  str_encode s = Ok bs -> bytes_decode bs = Ok s.
Proof.
  revert bs. induction s as [|c s IH]; simpl; intros bs H.
  - now inversion H.
  - apply bind_Ok in H. destruct H as (b & Hb & H).
    apply bind_Ok in H. destruct H as (bs' & Hbs' & H).
    inversion H; subst. eapply decode_encode_char; eauto.
Qed.

Lemma str_encode_app (s1 s2 : pystr) (b1 b2 : bytes) :
  str_encode s1 = Ok b1 -> str_encode s2 = Ok b2 ->
  str_encode (s1 ++ s2) = Ok (b1 ++ b2).
Proof.
  revert b1. induction s1 as [|c s1 IH]; simpl; intros b1 H1 H2.
  - now inversion H1.
  - apply bind_Ok in H1. destruct H1 as (b & Hb & H1).
    apply bind_Ok in H1. destruct H1 as (bs' & Hbs' & H1).
    inversion H1; subst. rewrite Hb. simpl.
    rewrite (IH bs' Hbs' H2). simpl. now rewrite app_assoc.
Qed.

Lemma str_encode_ascii (bs : bytes) :
  is_ascii bs -> str_encode (ascii_str bs) = Ok bs.
Proof.
  induction 1 as [|b bs Hb _ IH]; [reflexivity|].
  unfold ascii_str in *. cbn [map str_encode].
  rewrite IH. unfold utf8_encode_char.
  destruct (N.ltb_spec (Byte.to_N b) 0x80); [|lia].
  cbn [bind app]. now rewrite byte_of_N_to_N.
Qed.

Lemma bytes_decode_ascii_app (a rest : bytes) (s : pystr) :
  is_ascii a -> bytes_decode rest = Ok s ->
  bytes_decode (a ++ rest) = Ok (ascii_str a ++ s).
Proof.
  intros Ha Hrest. induction Ha as [|b a Hb _ IH]; [assumption|].
  cbn [app ascii_str map]. now apply decode_1.
Qed.

(** The encoding of a string has at least as many octets as the string
    has code points. *)
Lemma str_encode_length (s : pystr) (bs : bytes) :
  str_encode s = Ok bs -> (List.length s <= List.length bs)%nat.
Proof.
  revert bs. induction s as [|c s IH]; simpl; intros bs H.
  - inversion H. simpl. lia.
  - apply bind_Ok in H. destruct H as (b & Hb & H).
    apply bind_Ok in H. destruct H as (bs' & Hbs' & H).
    inversion H; subst. rewrite length_app. specialize (IH _ Hbs').
    assert (1 <= List.length b)%nat; [|lia].
    unfold utf8_encode_char in Hb.
    repeat match type of Hb with
    | (if ?c then _ else _) = _ => destruct c
    end; inversion Hb; simpl; lia.
Qed.

(** ** Base64 *)

Lemma to_N_b64_char (v : N) :
  v < 64 ->
  Byte.to_N (b64_char v) =
  if v <? 26 then 65 + v
  else if v <? 52 then 71 + v
  else if v <? 62 then v - 4
  else if v =? 62 then 43 else 47.
Proof.
  intros Hv. unfold b64_char. split_tests;
    try reflexivity; rewrite to_N_byte_of_N; lia.
Qed.

Lemma b64_val_char (v : N) : v < 64 -> b64_val (b64_char v) = Some v.
Proof.
  intros Hv. unfold b64_val. cbv zeta. rewrite to_N_b64_char by assumption.
  destruct (N.ltb_spec v 26); [split_tests; cbn [andb]; f_equal; lia|].
  destruct (N.ltb_spec v 52); [split_tests; cbn [andb]; f_equal; lia|].
  destruct (N.ltb_spec v 62); [split_tests; cbn [andb]; f_equal; lia|].
  destruct (N.eqb_spec v 62); [subst; reflexivity|].
  assert (v = 63) as -> by lia. reflexivity.
Qed.

Lemma b64_char_not_pad (v : N) :
  v < 64 -> Byte.eqb (b64_char v) "="%byte = false.
Proof.
  intros Hv. destruct (Byte.eqb (b64_char v) "="%byte) eqn:E; [|reflexivity].
  apply Byte.byte_dec_bl in E. apply (f_equal Byte.to_N) in E.
  rewrite to_N_b64_char in E by assumption.
  change (Byte.to_N "="%byte) with 61 in E.
  revert E. split_tests.
Qed.

Lemma b64_char_ascii (v : N) : v < 64 -> Byte.to_N (b64_char v) < 0x80.
Proof. intros Hv. rewrite to_N_b64_char by assumption. split_tests. Qed.

(** The decoder on a character of the alphabet. *)
Lemma a2b_loop_char (v : N) (s : bytes) (quad_pos leftchar pads : N) :
  v < 64 ->
  a2b_loop (b64_char v :: s) quad_pos leftchar pads =
  if quad_pos =? 0 then a2b_loop s 1 v 0
  else if quad_pos =? 1 then
    r <- a2b_loop s 2 (v mod 16) 0 ;;
    Ok (byte_of_N (leftchar * 4 + v / 16) :: r)
  else if quad_pos =? 2 then
    r <- a2b_loop s 3 (v mod 4) 0 ;;
    Ok (byte_of_N (leftchar * 16 + v / 4) :: r)
  else
    r <- a2b_loop s 0 0 0 ;;
    Ok (byte_of_N (leftchar * 64 + v) :: r).
Proof.
  intros Hv. cbn [a2b_loop].
  now rewrite b64_char_not_pad, b64_val_char by assumption.
Qed.

(** The decoder on a pad character. *)
Lemma a2b_loop_pad (s : bytes) (quad_pos leftchar pads : N) :
  a2b_loop ("="%byte :: s) quad_pos leftchar pads =
  if 2 <=? quad_pos then
    if 4 <=? quad_pos + (pads + 1) then Ok []
    else a2b_loop s quad_pos leftchar (pads + 1)
  else a2b_loop s quad_pos leftchar pads.
Proof. reflexivity. Qed.

Lemma a2b_loop_pad_more (s : bytes) (quad_pos leftchar pads : N) :
  2 <= quad_pos -> quad_pos + (pads + 1) < 4 ->
  a2b_loop ("="%byte :: s) quad_pos leftchar pads =
  a2b_loop s quad_pos leftchar (pads + 1).
Proof. intros. rewrite a2b_loop_pad. now split_tests. Qed.

Lemma a2b_loop_pad_done (s : bytes) (quad_pos leftchar pads : N) :
  2 <= quad_pos -> 4 <= quad_pos + (pads + 1) ->
  a2b_loop ("="%byte :: s) quad_pos leftchar pads = Ok [].
Proof. intros. rewrite a2b_loop_pad. now split_tests. Qed.

Lemma byte_of_N_eq (n : N) (b : byte) : n = Byte.to_N b -> byte_of_N n = b.
Proof. intros ->. apply byte_of_N_to_N. Qed.

(** Lists three elements at a time. *)
Lemma list_ind3 {A} (P : list A -> Prop) :
  P [] ->
  (forall a, P [a]) ->
  (forall a b, P [a; b]) ->
  (forall a b c l, P l -> P (a :: b :: c :: l)) ->
  forall l, P l.
Proof.
  intros H0 H1 H2 H3.
  assert (forall l, P l /\ (forall a, P (a :: l))
                    /\ (forall a b, P (a :: b :: l))) as H.
  { induction l as [|x l (IH0 & IH1 & IH2)]; [now auto|].
    repeat split; auto. }
  intros l. apply H.
Qed.

Lemma a2b_loop_b64encode (s : bytes) (lc pads : N) :
  a2b_loop (b64encode s) 0 lc pads = Ok s.
Proof.
  revert lc pads.
  induction s as [|a|a b|a b c s IH] using list_ind3; intros lc pads.
  - reflexivity.
  - cbn [b64encode]. cbv zeta.
    pose proof (to_N_lt_256 a).
    rewrite !a2b_loop_char by lia. cbn [N.eqb Pos.eqb].
    rewrite a2b_loop_pad_more, a2b_loop_pad_done by lia. cbn [bind].
    do 2 f_equal. apply byte_of_N_eq. lia.
  - cbn [b64encode]. cbv zeta.
    pose proof (to_N_lt_256 a). pose proof (to_N_lt_256 b).
    rewrite !a2b_loop_char by lia. cbn [N.eqb Pos.eqb].
    rewrite a2b_loop_pad_done by lia. cbn [bind].
    f_equal. f_equal; [|f_equal]; apply byte_of_N_eq; lia.
  - cbn [b64encode]. cbv zeta.
    pose proof (to_N_lt_256 a). pose proof (to_N_lt_256 b).
    pose proof (to_N_lt_256 c).
    rewrite !a2b_loop_char by lia. cbn [N.eqb Pos.eqb].
    rewrite IH. cbn [bind].
    f_equal. f_equal; [|f_equal; [|f_equal]]; apply byte_of_N_eq; lia.
Qed.

(** [base64.b64decode(base64.b64encode(s)) == s]. *)
Lemma b64decode_b64encode (s : bytes) : b64decode (b64encode s) = Ok s.
Proof. apply a2b_loop_b64encode. Qed.

Lemma b64encode_ascii (s : bytes) : is_ascii (b64encode s).
Proof.
  unfold is_ascii.
  induction s as [|a|a b|a b c s IH] using list_ind3; cbn [b64encode];
    cbv zeta; try pose proof (to_N_lt_256 a); try pose proof (to_N_lt_256 b);
    try pose proof (to_N_lt_256 c);
    repeat (apply Forall_cons; [first [apply b64_char_ascii; lia
                                      | reflexivity] |]);
    auto.
Qed.

Lemma b64encode_length (s : bytes) (n : nat) :
  List.length s = (3 * n)%nat -> List.length (b64encode s) = (4 * n)%nat.
Proof.
  revert n. induction s as [|a|a b|a b c s IH] using list_ind3;
    intros n Hn; cbn [List.length] in Hn.
  - assert (n = 0)%nat as -> by lia. reflexivity.
  - lia.
  - lia.
  - destruct n as [|n]; [lia|]. cbn [b64encode]. cbv zeta.
    cbn [List.length]. rewrite (IH n) by lia. lia.
Qed.

(** ** Digests *)

Lemma md5_length (m : bytes) : List.length (md5 m) = 16%nat.
Proof.
  unfold md5. cbv zeta.
  destruct (md5_blocks _ _ _) as [[[a b] c] d]. reflexivity.
Qed.

Lemma hmac_md5_length (key msg : bytes) :
  List.length (hmac_md5 key msg) = 16%nat.
Proof. unfold hmac_md5. cbv zeta. apply md5_length. Qed.

(** ** [str] of an integer *)

Lemma lit_app (s1 s2 : string) : lit (s1 ++ s2) = lit s1 ++ lit s2.
Proof.
  unfold lit. induction s1 as [|a s1 IH]; [reflexivity|].
  cbn [String.append list_ascii_of_string map app]. now rewrite IH.
Qed.

Lemma lit_inj (s1 s2 : string) : lit s1 = lit s2 -> s1 = s2.
Proof.
  unfold lit. revert s2.
  induction s1 as [|a s1 IH]; intros [|b s2] H; try discriminate;
    [reflexivity|].
  cbn [list_ascii_of_string map] in H. injection H as Ha H.
  f_equal; [|now apply IH].
  rewrite <- (ascii_N_embedding a), <- (ascii_N_embedding b).
  now rewrite Ha.
Qed.

Lemma str_encode_ascii_only (s : pystr) :
  ascii_only s -> str_encode s = Ok (map byte_of_N s).
Proof.
  induction 1 as [|c s Hc _ IH]; [reflexivity|].
  cbn [str_encode map]. rewrite IH. unfold utf8_encode_char.
  destruct (N.ltb_spec c 0x80); [reflexivity|lia].
Qed.

Lemma map_byte_of_N_inj (s1 s2 : pystr) :
  ascii_only s1 -> ascii_only s2 ->
  map byte_of_N s1 = map byte_of_N s2 -> s1 = s2.
Proof.
  intros H1. revert s2.
  induction H1 as [|c s1 Hc _ IH]; intros s2 H2 H; destruct H2 as [|d s2 Hd H2];
    try discriminate; [reflexivity|].
  cbn [map] in H. injection H as Hcd H. f_equal; [|now apply IH].
  apply (f_equal Byte.to_N) in Hcd.
  rewrite !to_N_byte_of_N in Hcd by lia. assumption.
Qed.

(** Every character that [str] of an integer produces is a digit or the
    sign. *)
Lemma uint_chars (d : Decimal.uint) :
  Forall (fun c => 0x2D <= c < 0x80) (lit (NilZero.string_of_uint d)).
Proof.
  assert (forall d, Forall (fun c => 0x2D <= c < 0x80)
                      (lit (NilEmpty.string_of_uint d))) as H.
  { clear d. induction d; cbn [NilEmpty.string_of_uint];
      try (apply Forall_cons; [cbn; lia | assumption]).
    constructor. }
  destruct d; try apply H. repeat constructor; cbn; lia.
Qed.

Lemma py_str_int_chars (z : Z) :
  Forall (fun c => 0x2D <= c < 0x80) (py_str_int z).
Proof.
  unfold py_str_int, NilZero.string_of_int.
  destruct (Z.to_int z) as [d|d]; [apply uint_chars|].
  apply Forall_cons; [cbn; lia | apply uint_chars].
Qed.

Lemma py_str_int_ascii (z : Z) : ascii_only (py_str_int z).
Proof.
  eapply Forall_impl; [|apply py_str_int_chars]. cbv beta. lia.
Qed.

Lemma str_encode_py_str_int (z : Z) :
  str_encode (py_str_int z) = Ok (int_bytes z).
Proof. apply str_encode_ascii_only, py_str_int_ascii. Qed.

Lemma to_int_not_nil (z : Z) :
  Z.to_int z <> Decimal.Pos Decimal.Nil /\
  Z.to_int z <> Decimal.Neg Decimal.Nil.
Proof.
  destruct z as [|p|p]; cbn [Z.to_int]; split; try discriminate;
    intros H; injection H as H; now apply DecimalPos.Unsigned.to_uint_nonnil in H.
Qed.

Lemma py_str_int_inj (z1 z2 : Z) : py_str_int z1 = py_str_int z2 -> z1 = z2.
Proof.
  unfold py_str_int. intros H. apply lit_inj in H.
  apply DecimalZ.to_int_inj.
  destruct (to_int_not_nil z1) as [A1 B1].
  destruct (to_int_not_nil z2) as [A2 B2].
  pose proof (NilZero.isi _ A1 B1) as E1.
  pose proof (NilZero.isi _ A2 B2) as E2.
  rewrite H in E1. rewrite E1 in E2. now injection E2.
Qed.

Lemma int_bytes_inj (z1 z2 : Z) : int_bytes z1 = int_bytes z2 -> z1 = z2.
Proof.
  intros H. apply py_str_int_inj.
  apply map_byte_of_N_inj; auto using py_str_int_ascii.
Qed.

(** The decimal digits of an integer hold no NUL. *)
Lemma int_bytes_no_nul (z : Z) : ~ In x00 (int_bytes z).
Proof.
  unfold int_bytes. intros H. apply in_map_iff in H.
  destruct H as (c & Hc & Hin).
  pose proof (py_str_int_chars z) as Hd.
  rewrite Forall_forall in Hd. specialize (Hd c Hin).
  apply (f_equal Byte.to_N) in Hc. rewrite to_N_byte_of_N in Hc by lia.
  change (Byte.to_N x00) with 0 in Hc. lia.
Qed.

(** ** Callback data *)

Lemma compare_true_iff (a b : bytes) : compare a b = true <-> a = b.
Proof.
  unfold compare. destruct (list_eq_dec Byte.byte_eq_dec a b);
    split; congruence.
Qed.

Lemma compare_refl (a : bytes) : compare a a = true.
Proof. now apply compare_true_iff. Qed.

Lemma compare_false_iff (a b : bytes) : compare a b = false <-> a <> b.
Proof.
  unfold compare. destruct (list_eq_dec Byte.byte_eq_dec a b);
    split; congruence.
Qed.

Lemma firstn_exact {A} (l1 l2 : list A) (n : nat) :
  List.length l1 = n -> firstn n (l1 ++ l2) = l1.
Proof.
  intros <-. rewrite firstn_app, Nat.sub_diag, firstn_O, app_nil_r.
  now apply firstn_all.
Qed.

Lemma skipn_exact {A} (l1 l2 : list A) (n : nat) :
  List.length l1 = n -> skipn n (l1 ++ l2) = l2.
Proof.
  intros <-. rewrite skipn_app, Nat.sub_diag, skipn_O, skipn_all.
  reflexivity.
Qed.

Lemma hashed_callback_name_Ok (name : pystr) (nb : bytes) :
  str_encode name = Ok nb ->
  hashed_callback_name name = Ok (firstn 8 (DIGEST nb)).
Proof. intros H. unfold hashed_callback_name. now rewrite H. Qed.

Lemma hashed_name_length (nb : bytes) :
  List.length (firstn 8 (DIGEST nb)) = 8%nat.
Proof. rewrite length_firstn. unfold DIGEST. rewrite md5_length. reflexivity. Qed.

Lemma str_encode_nil (s : pystr) : str_encode s = Ok [] -> s = [].
Proof.
  intros H. apply str_encode_length in H. destruct s; [reflexivity|].
  cbn [List.length] in H. lia.
Qed.

Lemma signed_message_inj (name : bytes) (c1 c2 : Chat) (data : bytes) :
  signed_message name c1 data = signed_message name c2 data ->
  chat_id c1 = chat_id c2.
Proof.
  unfold signed_message. intros H.
  apply app_inv_head in H. apply app_inv_head in H.
  apply app_inv_tail in H. now apply int_bytes_inj.
Qed.

Section CallbackData.

Context {Bot : Type}.
Variable get_hmac : Bot -> bytes -> bytes.

Lemma get_signature_Ok (bot : Bot) (chat : Chat) (name data : bytes) :
  get_signature get_hmac bot chat name data =
  Ok (get_hmac bot (signed_message name chat data)).
Proof.
  unfold get_signature. now rewrite str_encode_py_str_int.
Qed.

Lemma get_callback_data_Ok (bot : Bot) (chat : Chat) (n : pystr)
    (p : option pystr) (nb pb : bytes) :
  str_encode n = Ok nb ->
  str_encode (or_empty p) = Ok pb ->
  (List.length pb <= 32)%nat ->
  get_callback_data get_hmac bot chat n p =
  Ok (token get_hmac bot chat (firstn 8 (DIGEST nb)) pb (or_empty p)).
Proof.
  intros Hn Hp Hlen. unfold get_callback_data.
  rewrite (hashed_callback_name_Ok _ _ Hn). cbn [bind]. cbv zeta.
  rewrite Hp. cbn [bind].
  destruct (Nat.ltb_spec 32 (List.length pb)); [lia|].
  rewrite get_signature_Ok. cbn [bind].
  apply bytes_decode_ascii_app; [apply b64encode_ascii|].
  now apply decode_encode.
Qed.

Lemma get_callback_data_too_big (bot : Bot) (chat : Chat) (n : pystr)
    (p : option pystr) (nb pb : bytes) :
  str_encode n = Ok nb ->
  str_encode (or_empty p) = Ok pb ->
  (32 < List.length pb)%nat ->
  get_callback_data get_hmac bot chat n p =
  Raise (ValueError (too_big (List.length pb))).
Proof.
  intros Hn Hp Hlen. unfold get_callback_data.
  rewrite (hashed_callback_name_Ok _ _ Hn). cbn [bind]. cbv zeta.
  rewrite Hp. cbn [bind].
  destruct (Nat.ltb_spec 32 (List.length pb)); [reflexivity|lia].
Qed.

Lemma str_encode_token (prelude pb : bytes) (p : pystr) :
  str_encode p = Ok pb ->
  str_encode (ascii_str (b64encode prelude) ++ p) =
  Ok (b64encode prelude ++ pb).
Proof.
  intros Hp. apply str_encode_app; [|assumption].
  apply str_encode_ascii, b64encode_ascii.
Qed.

(** What [parse_callback_data] computes once [raw] has been encoded. *)
Lemma parse_callback_data_encoded (bot : Bot) (chat : Chat) (raw : pystr)
    (rawb : bytes) :
  str_encode raw = Ok rawb ->
  parse_callback_data get_hmac bot chat raw =
  if (List.length rawb <? 32)%nat then Raise TamperedMessageError
  else
    prelude <- except_binascii (b64decode (firstn 32 rawb)) ;;
    if negb (compare (get_hmac bot
                        (signed_message (skipn 16 prelude) chat
                           (skipn 32 rawb)))
               (firstn 16 prelude))
    then Raise TamperedMessageError
    else
      match skipn 32 rawb with
      | [] => Ok (skipn 16 prelude, None)
      | _ => d <- bytes_decode (skipn 32 rawb) ;;
             Ok (skipn 16 prelude, Some d)
      end.
Proof.
  intros Hraw. unfold parse_callback_data. rewrite Hraw. cbn [bind].
  destruct (List.length rawb <? 32)%nat; [reflexivity|].
  destruct (except_binascii _) as [prelude|e]; [|reflexivity].
  cbn [bind]. cbv zeta. now rewrite get_signature_Ok.
Qed.

(** Decoding a string of the shape of a token, against any chat. *)
Lemma parse_token (bot : Bot) (chat : Chat) (sig hn pb : bytes)
    (p : pystr) :
  List.length sig = 16%nat ->
  List.length hn = 8%nat ->
  str_encode p = Ok pb ->
  parse_callback_data get_hmac bot chat
    (ascii_str (b64encode (sig ++ hn)) ++ p) =
  if compare (get_hmac bot (signed_message hn chat pb)) sig
  then Ok (hn, match p with [] => None | _ :: _ => Some p end)
  else Raise TamperedMessageError.
Proof.
  intros Hsig Hhn Hp.
  rewrite (parse_callback_data_encoded _ _ _ _ (str_encode_token _ _ _ Hp)).
  assert (List.length (b64encode (sig ++ hn)) = 32%nat) as H32.
  { apply (b64encode_length _ 8). rewrite length_app. lia. }
  rewrite length_app, H32.
  destruct (Nat.ltb_spec (32 + List.length pb) 32); [lia|].
  rewrite (firstn_exact _ _ _ H32), (skipn_exact _ _ _ H32).
  rewrite b64decode_b64encode. cbn [except_binascii bind].
  rewrite (firstn_exact _ _ _ Hsig), (skipn_exact _ _ _ Hsig).
  destruct (compare _ sig); cbn [negb]; [|reflexivity].
  destruct pb as [|b pb].
  - apply str_encode_nil in Hp. now subst p.
  - rewrite (decode_encode _ _ Hp). cbn [bind].
    destruct p as [|c p]; [discriminate|reflexivity].
Qed.

End CallbackData.

(** ** What the codecs can raise *)

Lemma a2b_loop_raises (s : bytes) (quad_pos leftchar pads : N) (e : exn) :
  a2b_loop s quad_pos leftchar pads = Raise e -> e = BinasciiError.
Proof.
  revert quad_pos leftchar pads.
  induction s as [|ch s IH]; intros quad_pos leftchar pads; cbn [a2b_loop].
  - destruct (quad_pos =? 0); congruence.
  - repeat match goal with
    | |- context [if ?c then _ else _] => destruct c
    | |- context [match b64_val ?c with _ => _ end] => destruct (b64_val c)
    | |- Ok _ = Raise _ -> _ => discriminate
    | |- a2b_loop s ?q ?l ?p = Raise _ -> _ => apply IH
    | |- bind (a2b_loop s ?q ?l ?p) _ = Raise _ -> _ =>
        let E := fresh in
        destruct (a2b_loop s q l p) eqn:E; cbn [bind];
          [discriminate | intros [= <-]; eapply IH; eassumption]
    end.
Qed.

Lemma b64decode_raises (s : bytes) (e : exn) :
  b64decode s = Raise e -> e = BinasciiError.
Proof. apply a2b_loop_raises. Qed.

Lemma except_binascii_b64decode (s : bytes) (e : exn) :
  b64decode s = Raise e ->
  except_binascii (b64decode s) = Raise TamperedMessageError.
Proof.
  intros H. rewrite H. now rewrite (b64decode_raises _ _ H).
Qed.

Lemma bytes_decode_raises (bs : bytes) (e : exn) :
  bytes_decode bs = Raise e -> e = UnicodeDecodeError.
Proof.
  remember (List.length bs) as n eqn:Hn.
  assert (List.length bs <= n)%nat as Hle by lia. clear Hn.
  revert bs Hle.
  induction n as [|n IH]; intros bs Hle.
  - destruct bs; [discriminate | cbn [List.length] in Hle; lia].
  - destruct bs as [|b0 r0]; [discriminate|].
    rewrite bytes_decode_cons. cbv zeta. cbn [List.length] in Hle.
    repeat match goal with
    | |- Raise _ = Raise _ -> _ => congruence
    | |- context [if ?c then _ else _] => destruct c
    | |- context [match ?l with [] => _ | _ :: _ => _ end] =>
        is_var l; destruct l; cbn [List.length] in Hle
    | |- bind (bytes_decode ?r) _ = Raise _ -> _ =>
        let E := fresh in
        destruct (bytes_decode r) eqn:E; cbn [bind];
          [discriminate | intros [= <-]; eapply (IH r); [lia | eassumption]]
    end.
Qed.

(** ** The claims on callback data *)

Section Claims.

Context {Bot : Type}.
Variable get_hmac : Bot -> bytes -> bytes.

(** The signature has [DIGEST_LEN] bytes. *)
Hypothesis get_hmac_length :
  forall bot m, List.length (get_hmac bot m) = DIGEST_LEN.

(** C1, as amended.  For every key, chat, name that UTF-8 encodes and
    payload whose UTF-8 encoding has at most 32 bytes, [get_callback_data]
    returns a token and [parse_callback_data] on it, for the same chat,
    returns the hashed name together with the payload, where an empty
    payload comes back as [None]. *)
Theorem round_trip (bot : Bot) (c : Chat) (n p : pystr) (nb pb : bytes) :
  str_encode n = Ok nb ->
  str_encode p = Ok pb ->
  (List.length pb <= 32)%nat ->
  exists tok hn,
    get_callback_data get_hmac bot c n (Some p) = Ok tok /\
    hashed_callback_name n = Ok hn /\
    parse_callback_data get_hmac bot c tok =
    Ok (hn, match p with [] => None | _ :: _ => Some p end).
Proof.
  intros Hn Hp Hlen.
  exists (token get_hmac bot c (firstn 8 (DIGEST nb)) pb p),
         (firstn 8 (DIGEST nb)).
  split; [|split].
  - now apply (get_callback_data_Ok get_hmac bot c n (Some p) nb pb).
  - now apply hashed_callback_name_Ok.
  - unfold token.
    rewrite (parse_token get_hmac bot c _ _ pb p
               (get_hmac_length _ _) (hashed_name_length nb) Hp).
    now rewrite compare_refl.
Qed.

(** X13.  A token made for chat [c1] and decoded against a
    chat [c2] with another id is checked against the digest of another
    message; decoding raises [TamperedMessageError] whenever that digest
    differs from the signature in the token, and returns what it returns
    for [c1] when the two digests are equal. *)
Theorem chat_binding (bot : Bot) (c1 c2 : Chat) (n : pystr)
    (p : option pystr) (nb pb : bytes) :
  str_encode n = Ok nb ->
  str_encode (or_empty p) = Ok pb ->
  (List.length pb <= 32)%nat ->
  chat_id c1 <> chat_id c2 ->
  let hn := firstn 8 (DIGEST nb) in
  exists tok,
    get_callback_data get_hmac bot c1 n p = Ok tok /\
    signed_message hn c2 pb <> signed_message hn c1 pb /\
    (get_hmac bot (signed_message hn c2 pb)
     <> get_hmac bot (signed_message hn c1 pb) ->
     parse_callback_data get_hmac bot c2 tok = Raise TamperedMessageError) /\
    (get_hmac bot (signed_message hn c2 pb)
     = get_hmac bot (signed_message hn c1 pb) ->
     parse_callback_data get_hmac bot c2 tok
     = parse_callback_data get_hmac bot c1 tok).
Proof.
  intros Hn Hp Hlen Hne hn. subst hn.
  exists (token get_hmac bot c1 (firstn 8 (DIGEST nb)) pb (or_empty p)).
  split; [now apply get_callback_data_Ok|].
  split; [intros H; apply signed_message_inj in H; congruence|].
  unfold token.
  rewrite !(parse_token get_hmac bot _ _ _ pb (or_empty p)
              (get_hmac_length _ _) (hashed_name_length nb) Hp).
  split.
  - intros H. apply compare_false_iff in H. now rewrite H.
  - intros H. now rewrite H.
Qed.

(** C3, as amended.  For a raw string that UTF-8 encodes: input shorter
    than 32 bytes, a base64 failure of the first 32 bytes and a signature
    mismatch all raise [TamperedMessageError]; malformed UTF-8 in the
    payload after the signature has been verified raises
    [UnicodeDecodeError]; and nothing else is raised. *)
Theorem tamper_errors (bot : Bot) (chat : Chat) (raw : pystr)
    (rawb : bytes) :
  str_encode raw = Ok rawb ->
  ((List.length rawb < 32)%nat ->
   parse_callback_data get_hmac bot chat raw = Raise TamperedMessageError)
  /\
  (forall e,
     (32 <= List.length rawb)%nat ->
     b64decode (firstn 32 rawb) = Raise e ->
     parse_callback_data get_hmac bot chat raw = Raise TamperedMessageError)
  /\
  (forall prelude,
     (32 <= List.length rawb)%nat ->
     b64decode (firstn 32 rawb) = Ok prelude ->
     get_hmac bot (signed_message (skipn 16 prelude) chat (skipn 32 rawb))
     <> firstn 16 prelude ->
     parse_callback_data get_hmac bot chat raw = Raise TamperedMessageError)
  /\
  (forall prelude e,
     (32 <= List.length rawb)%nat ->
     b64decode (firstn 32 rawb) = Ok prelude ->
     get_hmac bot (signed_message (skipn 16 prelude) chat (skipn 32 rawb))
     = firstn 16 prelude ->
     bytes_decode (skipn 32 rawb) = Raise e ->
     parse_callback_data get_hmac bot chat raw = Raise UnicodeDecodeError)
  /\
  (forall e,
     parse_callback_data get_hmac bot chat raw = Raise e ->
     e = TamperedMessageError \/ e = UnicodeDecodeError).
Proof.
  intros Hraw.
  rewrite (parse_callback_data_encoded get_hmac bot chat raw rawb Hraw).
  repeat split.
  - intros H. now destruct (Nat.ltb_spec (List.length rawb) 32); [|lia].
  - intros e H E. destruct (Nat.ltb_spec (List.length rawb) 32); [lia|].
    now rewrite (except_binascii_b64decode _ _ E).
  - intros prelude H E Hsig.
    destruct (Nat.ltb_spec (List.length rawb) 32); [lia|].
    rewrite E. cbn [except_binascii bind].
    apply compare_false_iff in Hsig. now rewrite Hsig.
  - intros prelude e H E Hsig Hdec.
    destruct (Nat.ltb_spec (List.length rawb) 32); [lia|].
    rewrite E. cbn [except_binascii bind].
    apply compare_true_iff in Hsig. rewrite Hsig. cbn [negb].
    destruct (skipn 32 rawb) as [|b data]; [discriminate|].
    rewrite Hdec. cbn [bind]. now rewrite (bytes_decode_raises _ _ Hdec).
  - intros e. destruct (List.length rawb <? 32)%nat; [left; congruence|].
    destruct (b64decode (firstn 32 rawb)) as [prelude|e'] eqn:E.
    + cbn [except_binascii bind].
      destruct (negb _); [left; congruence|].
      destruct (skipn 32 rawb) as [|b data]; [discriminate|].
      destruct (bytes_decode (b :: data)) as [d|e''] eqn:Hdec;
        cbn [bind]; [discriminate|].
      intros [= <-]. right. now apply (bytes_decode_raises _ _ Hdec).
    + rewrite (b64decode_raises _ _ E). cbn [except_binascii bind].
      left; congruence.
Qed.

(** C5, as amended.  For every raw string whose UTF-8 encoding has 31
    bytes or fewer, whatever its content, [parse_callback_data] raises
    [TamperedMessageError]. *)
Theorem minimum_length (bot : Bot) (chat : Chat) (raw : pystr)
    (rawb : bytes) :
  str_encode raw = Ok rawb ->
  (List.length rawb <= 31)%nat ->
  parse_callback_data get_hmac bot chat raw = Raise TamperedMessageError.
Proof.
  intros Hraw Hlen.
  rewrite (parse_callback_data_encoded get_hmac bot chat raw rawb Hraw).
  now destruct (Nat.ltb_spec (List.length rawb) 32); [|lia].
Qed.

(** C9.  For a name that UTF-8 encodes and a payload of at most 32 bytes
    the token is the text of [base64(signature + hashed name)] followed
    by the payload: the signature has 16 bytes and is the keyed digest of
    [hashed name + NUL + str(chat.id) + NUL + payload], the hashed name
    has 8 bytes, and the prelude has 32 characters that decode to those
    24 bytes. *)
Theorem wire_format (bot : Bot) (chat : Chat) (n : pystr)
    (p : option pystr) (nb pb : bytes) :
  str_encode n = Ok nb ->
  str_encode (or_empty p) = Ok pb ->
  (List.length pb <= 32)%nat ->
  exists tok hn cid signature,
    get_callback_data get_hmac bot chat n p = Ok tok /\
    hashed_callback_name n = Ok hn /\
    str_encode (py_str_int (chat_id chat)) = Ok cid /\
    signature = get_hmac bot (hn ++ [x00] ++ cid ++ [x00] ++ pb) /\
    str_encode tok = Ok (b64encode (signature ++ hn) ++ pb) /\
    List.length signature = 16%nat /\
    List.length hn = 8%nat /\
    List.length (b64encode (signature ++ hn)) = 32%nat /\
    b64decode (b64encode (signature ++ hn)) = Ok (signature ++ hn) /\
    List.length (signature ++ hn) = 24%nat.
Proof.
  intros Hn Hp Hlen.
  exists (token get_hmac bot chat (firstn 8 (DIGEST nb)) pb (or_empty p)),
         (firstn 8 (DIGEST nb)), (int_bytes (chat_id chat)),
         (get_hmac bot (signed_message (firstn 8 (DIGEST nb)) chat pb)).
  pose proof (hashed_name_length nb) as H8.
  pose proof (get_hmac_length bot
                (signed_message (firstn 8 (DIGEST nb)) chat pb)) as H16.
  unfold DIGEST_LEN in H16.
  repeat split.
  - now apply get_callback_data_Ok.
  - now apply hashed_callback_name_Ok.
  - apply str_encode_py_str_int.
  - unfold token. now apply str_encode_token.
  - exact H16.
  - exact H8.
  - apply (b64encode_length _ 8). rewrite length_app. lia.
  - apply b64decode_b64encode.
  - rewrite length_app. lia.
Qed.

(** C10.  [get_callback_data] gives the same result for the payload
    [None] and for the empty string, and for a name that UTF-8 encodes
    that result is a token which [parse_callback_data] decodes to the
    hashed name and [None]. *)
Theorem none_is_empty (bot : Bot) (c : Chat) (n : pystr) (nb : bytes) :
  str_encode n = Ok nb ->
  get_callback_data get_hmac bot c n None
  = get_callback_data get_hmac bot c n (Some (lit "")) /\
  exists tok,
    get_callback_data get_hmac bot c n None = Ok tok /\
    parse_callback_data get_hmac bot c tok
    = Ok (firstn 8 (DIGEST nb), None).
Proof.
  intros Hn. split; [reflexivity|].
  exists (token get_hmac bot c (firstn 8 (DIGEST nb)) [] (or_empty None)).
  split.
  - apply (get_callback_data_Ok get_hmac bot c n None nb []);
      [assumption | reflexivity | cbn; lia].
  - unfold token.
    rewrite (parse_token get_hmac bot c _ _ [] (or_empty None)
               (get_hmac_length _ _) (hashed_name_length nb) eq_refl).
    now rewrite compare_refl.
Qed.

End Claims.

(** C4.  A payload whose UTF-8 encoding has exactly 32 bytes gets a
    token; one of 33 bytes or more gets the [ValueError], and gets it
    whatever the keyed hash is: no signature enters the result. *)
Theorem payload_size_boundary {Bot} (get_hmac : Bot -> bytes -> bytes)
    (bot : Bot) (chat : Chat) (n p : pystr) (nb pb : bytes) :
  str_encode n = Ok nb ->
  str_encode p = Ok pb ->
  (List.length pb = 32%nat ->
   exists tok, get_callback_data get_hmac bot chat n (Some p) = Ok tok) /\
  ((33 <= List.length pb)%nat ->
   forall get_hmac' : Bot -> bytes -> bytes,
     get_callback_data get_hmac' bot chat n (Some p)
     = Raise (ValueError (too_big (List.length pb)))).
Proof.
  intros Hn Hp. split.
  - intros Hlen. eexists.
    apply (get_callback_data_Ok get_hmac bot chat n (Some p) nb pb);
      [assumption | assumption | lia].
  - intros Hlen get_hmac'.
    apply (get_callback_data_too_big get_hmac' bot chat n (Some p) nb pb);
      [assumption | assumption | lia].
Qed.

(** ** The claims at the concrete bot *)

(** The codecs and HMAC-MD5 on known values. *)
Example md5_abc :
  hex (md5 (blit "abc")) = blit "900150983cd24fb0d6963f7d28e17f72".
Proof. vm_compute. reflexivity. Qed.

Example hmac_md5_rfc2202 :
  hex (hmac_md5 (blit "Jefe") (blit "what do ya want for nothing?"))
  = blit "750c783e6ab0b503eaa86e310a5db738".
Proof. vm_compute. reflexivity. Qed.

Example get_callback_data_hello :
  get_callback_data hmac_md5 secret chat42 comp_cb (Some hello)
  = Ok (lit "qSoGTLXyfOFJggQ698Diqm7Gh7mLI0mGh" ++ [233] ++ lit "llo").
Proof. vm_compute. reflexivity. Qed.

(** C1 at a payload of six bytes. *)
Lemma round_trip_hello :
  exists tok hn,
    get_callback_data hmac_md5 secret chat42 comp_cb (Some hello) = Ok tok /\
    hashed_callback_name comp_cb = Ok hn /\
    parse_callback_data hmac_md5 secret chat42 tok = Ok (hn, Some hello).
Proof.
  apply (round_trip hmac_md5 hmac_md5_length secret chat42 comp_cb hello
           (blit "comp:cb") hello_utf8).
  - reflexivity.
  - reflexivity.
  - cbn. lia.
Defined.

(** C1 as stated fails at the empty payload: the token decodes to
    [None], not to the empty string. *)
Lemma round_trip_empty_payload :
  exists tok hn,
    get_callback_data hmac_md5 secret chat42 comp_cb (Some (lit "")) = Ok tok /\
    hashed_callback_name comp_cb = Ok hn /\
    parse_callback_data hmac_md5 secret chat42 tok = Ok (hn, None) /\
    parse_callback_data hmac_md5 secret chat42 tok <> Ok (hn, Some (lit "")).
Proof.
  exists (lit "wQqLvLuzr1chTxox/diujW7Gh7mLI0mG"),
         [x6e; xc6; x87; xb9; x8b; x23; x49; x86].
  repeat split; try (vm_compute; reflexivity).
  vm_compute. discriminate.
Qed.

(** X13 at the chats 42 and 43, with the payload [hi]. *)
Lemma chat_binding_42_43 :
  exists tok,
    get_callback_data hmac_md5 secret chat42 comp_cb (Some (lit "hi")) = Ok tok /\
    parse_callback_data hmac_md5 secret chat43 tok = Raise TamperedMessageError.
Proof.
  destruct (chat_binding hmac_md5 hmac_md5_length secret chat42 chat43
              comp_cb (Some (lit "hi")) (blit "comp:cb") (blit "hi"))
    as (tok & Htok & _ & Hfail & _).
  - reflexivity.
  - reflexivity.
  - cbn. lia.
  - cbn. lia.
  - exists tok. split; [exact Htok|]. apply Hfail.
    vm_compute. discriminate.
Defined.

(** C3 at thirty-two [A]s: a well-formed prelude whose signature does
    not match. *)
Lemma tamper_errors_mismatch :
  parse_callback_data hmac_md5 secret chat42
    (lit "AAAAAAAAAAAAAAAAAAAAAAAAAAAAAAAA")
  = Raise TamperedMessageError.
Proof.
  destruct (tamper_errors hmac_md5 secret chat42
              (lit "AAAAAAAAAAAAAAAAAAAAAAAAAAAAAAAA")
              (blit "AAAAAAAAAAAAAAAAAAAAAAAAAAAAAAAA") eq_refl)
    as (_ & _ & Hmismatch & _).
  apply (Hmismatch (repeat x00 24)).
  - cbn. lia.
  - vm_compute. reflexivity.
  - vm_compute. discriminate.
Defined.

(** C3 as stated fails: the signature of [raw_split] is the right one for
    its payload, the payload is not UTF-8, and the error is not
    [TamperedMessageError]. *)
Lemma malformed_payload_error :
  b64decode (blit "3d/0RpHM77Kf++xWg7Y7pGhlbGxv!!!" ++ [xc3])
  = Ok (hmac_md5 secret (signed_message (blit "hello") chat42 [xa9])
        ++ blit "hello") /\
  parse_callback_data hmac_md5 secret chat42 raw_split
  = Raise UnicodeDecodeError /\
  parse_callback_data hmac_md5 secret chat42 raw_split
  <> Raise TamperedMessageError.
Proof.
  repeat split; try (vm_compute; reflexivity).
  vm_compute. discriminate.
Qed.

(** C4 at payloads of 32 and 33 bytes. *)
Lemma payload_size_32_33 :
  (exists tok,
     get_callback_data hmac_md5 secret chat42 comp_cb
       (Some (lit "aaaaaaaaaaaaaaaaaaaaaaaaaaaaaaaa")) = Ok tok) /\
  get_callback_data hmac_md5 secret chat42 comp_cb
    (Some (lit "aaaaaaaaaaaaaaaaaaaaaaaaaaaaaaaaa"))
  = Raise (ValueError
      (lit "The provided data is too big (33 bytes), try to reduce it to 32 bytes")).
Proof.
  split.
  - apply (payload_size_boundary hmac_md5 secret chat42 comp_cb
             (lit "aaaaaaaaaaaaaaaaaaaaaaaaaaaaaaaa") (blit "comp:cb")
             (blit "aaaaaaaaaaaaaaaaaaaaaaaaaaaaaaaa") eq_refl eq_refl).
    reflexivity.
  - apply (payload_size_boundary hmac_md5 secret chat42 comp_cb
             (lit "aaaaaaaaaaaaaaaaaaaaaaaaaaaaaaaaa") (blit "comp:cb")
             (blit "aaaaaaaaaaaaaaaaaaaaaaaaaaaaaaaaa") eq_refl eq_refl).
    cbn. lia.
Defined.

(** C5 at a raw string of four bytes. *)
Lemma minimum_length_abcd :
  parse_callback_data hmac_md5 secret chat42 (lit "YWJj")
  = Raise TamperedMessageError.
Proof.
  apply (minimum_length hmac_md5 secret chat42 (lit "YWJj") (blit "YWJj")).
  - reflexivity.
  - cbn. lia.
Defined.

(** C5 as stated fails: [raw30] has thirty characters and decodes. *)
Lemma thirty_characters_decode :
  List.length raw30 = 30%nat /\
  parse_callback_data hmac_md5 secret chat42 raw30
  = Ok (blit "hello", None).
Proof. split; vm_compute; reflexivity. Qed.

(** C9 at the payload [héllo]. *)
Lemma wire_format_hello :
  exists tok,
    get_callback_data hmac_md5 secret chat42 comp_cb (Some hello) = Ok tok /\
    str_encode tok =
    Ok (b64encode
          (hmac_md5 secret
             ([x6e; xc6; x87; xb9; x8b; x23; x49; x86] ++ [x00]
              ++ blit "42" ++ [x00] ++ hello_utf8)
           ++ [x6e; xc6; x87; xb9; x8b; x23; x49; x86])
        ++ hello_utf8).
Proof.
  destruct (wire_format hmac_md5 hmac_md5_length secret chat42 comp_cb
              (Some hello) (blit "comp:cb") hello_utf8)
    as (tok & hn & cid & signature & Htok & Hhn & Hcid & Hsig & Henc & _).
  - reflexivity.
  - reflexivity.
  - cbn. lia.
  - exists tok. split; [exact Htok|].
    vm_compute in Hhn. injection Hhn as <-.
    vm_compute in Hcid. injection Hcid as <-.
    rewrite Henc, Hsig. reflexivity.
Defined.

(** C10 at the callback [comp:cb]. *)
Lemma none_is_empty_comp_cb :
  get_callback_data hmac_md5 secret chat42 comp_cb None
  = get_callback_data hmac_md5 secret chat42 comp_cb (Some (lit "")) /\
  exists tok,
    get_callback_data hmac_md5 secret chat42 comp_cb None = Ok tok /\
    parse_callback_data hmac_md5 secret chat42 tok
    = Ok (firstn 8 (DIGEST (blit "comp:cb")), None).
Proof.
  apply (none_is_empty hmac_md5 hmac_md5_length secret chat42 comp_cb
           (blit "comp:cb")).
  reflexivity.
Defined.

(** ** Inline keyboards *)

Lemma lookup_None (index : Z) (rows : list (Z * ButtonsRow)) :
  lookup index rows = None <-> ~ In index (map fst rows).
Proof.
  induction rows as [|[i r] rows IH]; cbn [lookup map fst In].
  - tauto.
  - destruct (Z.eqb_spec i index).
    + split; [discriminate | tauto].
    + rewrite IH. tauto.
Qed.

Lemma lookup_In (index : Z) (row : ButtonsRow) (rows : list (Z * ButtonsRow)) :
  NoDup (map fst rows) ->
  lookup index rows = Some row <-> In (index, row) rows.
Proof.
  induction rows as [|[i r] rows IH]; cbn [lookup map fst In]; intros Hnd.
  - split; [discriminate | tauto].
  - inversion Hnd as [|? ? Hnotin Hnd']; subst.
    destruct (Z.eqb_spec i index) as [->|Hne].
    + split.
      * intros [= ->]. now left.
      * intros [[= ->]|Hin]; [reflexivity|].
        exfalso. apply Hnotin. apply in_map_iff. now exists (index, row).
    + rewrite (IH Hnd'). split; [tauto|].
      intros [[= -> _]|Hin]; [congruence | assumption].
Qed.

Lemma store_keys (index : Z) (row : ButtonsRow) (rows : list (Z * ButtonsRow)) :
  map fst (store index row rows) = map fst rows.
Proof.
  induction rows as [|[i r] rows IH]; [reflexivity|].
  cbn [store]. destruct (i =? index)%Z; cbn [map fst]; congruence.
Qed.

(** The dict after [kb[index]]: the same keys, and [index] last if it
    was not one. *)
Lemma getitem_keys (kb : Buttons) (index : Z) :
  map fst (_rows (fst (__getitem__ kb index))) =
  if in_dec Z.eq_dec index (map fst (_rows kb)) then map fst (_rows kb)
  else map fst (_rows kb) ++ [index].
Proof.
  unfold __getitem__.
  destruct (lookup index (_rows kb)) as [row|] eqn:E; cbn [fst _rows].
  - destruct (in_dec Z.eq_dec index (map fst (_rows kb))) as [|Hn];
      [reflexivity|].
    apply lookup_None in Hn. congruence.
  - apply lookup_None in E.
    destruct (in_dec Z.eq_dec index (map fst (_rows kb))); [tauto|].
    now rewrite map_app.
Qed.

Lemma run_step_keys (kb : Buttons) (s : step) :
  map fst (_rows (run_step kb s)) =
  map fst (_rows (fst (__getitem__ kb (step_index s)))).
Proof.
  destruct s; cbn [run_step step_index]; [reflexivity|..];
    unfold on_row; destruct (__getitem__ kb index) as [kb' row];
    cbn [_rows fst]; apply store_keys.
Qed.

Lemma build_snoc (steps : list step) (s : step) :
  build (steps ++ [s]) = run_step (build steps) s.
Proof. unfold build. now rewrite fold_left_app. Qed.

(** The keys of the dict are distinct, and they are the indices that the
    statements name. *)
Lemma build_keys (steps : list step) :
  NoDup (map fst (_rows (build steps))) /\
  (forall i, In i (map fst (_rows (build steps)))
             <-> In i (map step_index steps)).
Proof.
  induction steps as [|s steps [IHnd IHin]] using rev_ind.
  - split; [constructor | reflexivity].
  - rewrite build_snoc, run_step_keys, getitem_keys, map_app.
    destruct (in_dec Z.eq_dec (step_index s) (map fst (_rows (build steps))))
      as [Hin|Hnotin]; split; try assumption.
    + intros i. rewrite in_app_iff, IHin. cbn [map In]. split; [tauto|].
      intros [H|[<-|[]]]; [assumption | now apply IHin].
    + apply NoDup_app; [assumption | repeat constructor; cbn; tauto |].
      intros i Hi [<-|[]]. contradiction.
    + intros i. rewrite !in_app_iff, IHin. reflexivity.
Qed.

(** *** [sorted] *)

Lemma insert_item_perm (x : Z * ButtonsRow) (l : list (Z * ButtonsRow)) :
  Permutation (insert_item x l) (x :: l).
Proof.
  induction l as [|y l IH]; cbn [insert_item]; [reflexivity|].
  destruct (fst x <=? fst y)%Z; [reflexivity|].
  rewrite IH. apply perm_swap.
Qed.

Lemma sorted_perm (l : list (Z * ButtonsRow)) : Permutation (sorted l) l.
Proof.
  induction l as [|x l IH]; cbn [sorted fold_right]; [reflexivity|].
  fold (sorted l). rewrite insert_item_perm. now constructor.
Qed.

Lemma insert_item_sorted (x : Z * ButtonsRow) (l : list (Z * ButtonsRow)) :
  StronglySorted index_le l -> StronglySorted index_le (insert_item x l).
Proof.
  induction 1 as [|y l Hs IH Hall]; cbn [insert_item].
  - repeat constructor.
  - destruct (Z.leb_spec (fst x) (fst y)).
    + constructor; [now constructor|].
      constructor; [assumption|].
      eapply Forall_impl; [|exact Hall]. unfold index_le. intros; lia.
    + constructor; [assumption|].
      eapply Permutation_Forall; [symmetry; apply insert_item_perm|].
      constructor; [unfold index_le; lia | assumption].
Qed.

Lemma sorted_sorted (l : list (Z * ButtonsRow)) :
  StronglySorted index_le (sorted l).
Proof.
  induction l as [|x l IH]; cbn [sorted fold_right]; [constructor|].
  now apply insert_item_sorted.
Qed.

(** Sorted distinct indices are strictly ascending. *)
Lemma strictly_ascending (l : list (Z * ButtonsRow)) :
  StronglySorted index_le l -> NoDup (map fst l) ->
  StronglySorted Z.lt (map fst l).
Proof.
  induction 1 as [|x l Hs IH Hall]; cbn [map]; intros Hnd; [constructor|].
  inversion Hnd as [|? ? Hnotin Hnd']; subst.
  constructor; [now apply IH|].
  rewrite Forall_forall in *. intros i Hi.
  apply in_map_iff in Hi. destruct Hi as (y & <- & Hy).
  specialize (Hall y Hy). unfold index_le in Hall.
  assert (fst x <> fst y); [|lia].
  intros E. apply Hnotin. rewrite E. now apply in_map.
Qed.

(** A strictly ascending list is determined by its elements. *)
Lemma strictly_ascending_unique (l1 l2 : list Z) :
  StronglySorted Z.lt l1 -> StronglySorted Z.lt l2 ->
  (forall i, In i l1 <-> In i l2) -> l1 = l2.
Proof.
  intros H1. revert l2.
  induction H1 as [|x l1 Hs1 IH Hall1]; intros l2 H2 Hin.
  - destruct l2 as [|y l2]; [reflexivity|].
    destruct (proj2 (Hin y) (or_introl eq_refl)).
  - destruct H2 as [|y l2 Hs2 Hall2].
    + destruct (proj1 (Hin x) (or_introl eq_refl)).
    + rewrite Forall_forall in Hall1, Hall2.
      assert (x = y) as <-.
      { destruct (proj1 (Hin x) (or_introl eq_refl)) as [E|Hx]; [auto|].
        destruct (proj2 (Hin y) (or_introl eq_refl)) as [E|Hy]; [auto|].
        specialize (Hall1 y Hy). specialize (Hall2 x Hx). lia. }
      f_equal. apply IH; [assumption|].
      intros i. split; intros Hi.
      * destruct (proj1 (Hin i) (or_intror Hi)) as [<-|]; [|assumption].
        specialize (Hall1 x Hi). lia.
      * destruct (proj2 (Hin i) (or_intror Hi)) as [<-|]; [|assumption].
        specialize (Hall2 x Hi). lia.
Qed.

Lemma emitted_indices_spec (steps : list step) :
  StronglySorted Z.lt (emitted_indices (build steps)) /\
  (forall i, In i (emitted_indices (build steps))
             <-> In i (map step_index steps)).
Proof.
  destruct (build_keys steps) as [Hnd Hin].
  pose proof (sorted_perm (_rows (build steps))) as Hperm.
  unfold emitted_indices. split.
  - apply strictly_ascending; [apply sorted_sorted|].
    eapply Permutation_NoDup; [|exact Hnd].
    apply Permutation_map. now symmetry.
  - intros i. rewrite <- Hin. split; intros H;
      (eapply Permutation_in; [|exact H]); apply Permutation_map;
      [assumption | now symmetry].
Qed.

Lemma mapM_Forall2 {A B} (f : A -> result B) (l : list A) (l' : list B) :
  mapM f l = Ok l' -> Forall2 (fun x y => f x = Ok y) l l'.
Proof.
  revert l'. induction l as [|x l IH]; cbn [mapM]; intros l' H.
  - injection H as <-. constructor.
  - destruct (f x) as [y|] eqn:E; cbn [bind] in H; [|discriminate].
    destruct (mapM f l) as [ys|]; cbn [bind] in H; [|discriminate].
    injection H as <-. constructor; auto.
Qed.

Lemma mapM_Ok {A B} (f : A -> result B) (l : list A) :
  (forall x, In x l -> exists y, f x = Ok y) -> exists l', mapM f l = Ok l'.
Proof.
  induction l as [|x l IH]; cbn [mapM]; intros H; [now eexists|].
  destruct (H x (or_introl eq_refl)) as [y ->].
  destruct IH as [ys ->]; [intros; apply H; now right|].
  cbn [bind]. now eexists.
Qed.

Lemma Forall2_map_l {A B C} (R : B -> C -> Prop) (g : A -> B)
    (l : list A) (l' : list C) :
  Forall2 (fun x y => R (g x) y) l l' -> Forall2 R (map g l) l'.
Proof. induction 1; cbn [map]; constructor; auto. Qed.

Lemma Forall2_impl_In {A B} (R R' : A -> B -> Prop) (l : list A)
    (l' : list B) :
  (forall x y, In x l -> R x y -> R' x y) ->
  Forall2 R l l' -> Forall2 R' l l'.
Proof.
  intros H F. induction F as [|x y l l' Hxy F IH]; constructor.
  - apply H; [now left | assumption].
  - apply IH. intros; apply H; [now right | assumption].
Qed.

Section Keyboard.

Context {Bot : Type}.
Variable get_hmac : Bot -> bytes -> bytes.

(** C8.  For the keyboard that any statements build: the rows emitted
    are those of the indices that the statements name, each once, in
    strictly ascending order of the index, whatever the order in which
    the statements name them; the attachment holds one row per such
    index and nothing else, the [k]-th being the content of the row with
    the [k]-th smallest index; it is produced whenever the content of
    every row is. *)
Theorem serialization_order (c : Context Bot) (steps : list step) :
  let kb := build steps in
  StronglySorted Z.lt (emitted_indices kb) /\
  (forall i, In i (emitted_indices kb) <-> In i (map step_index steps)) /\
  (forall steps',
     (forall i, In i (map step_index steps')
                <-> In i (map step_index steps)) ->
     emitted_indices (build steps') = emitted_indices kb) /\
  (forall att,
     _serialize_attachment get_hmac c kb = Ok att ->
     Forall2 (fun i wire =>
                exists row, lookup i (_rows kb) = Some row /\
                            _get_content get_hmac c row = Ok wire)
       (emitted_indices kb) (inline_keyboard att)) /\
  ((forall i row, lookup i (_rows kb) = Some row ->
                  exists wire, _get_content get_hmac c row = Ok wire) ->
   exists att, _serialize_attachment get_hmac c kb = Ok att).
Proof.
  intros kb. destruct (build_keys steps) as [Hnd Hin]. fold kb in Hnd, Hin.
  pose proof (sorted_perm (_rows kb)) as Hperm.
  assert (NoDup (map fst (sorted (_rows kb)))) as Hnd'.
  { eapply Permutation_NoDup; [|exact Hnd].
    apply Permutation_map. now symmetry. }
  destruct (emitted_indices_spec steps) as [Hasc Hset]. fold kb in Hasc, Hset.
  split; [exact Hasc|]. split; [exact Hset|]. split; [|split].
  - intros steps' Hsame.
    destruct (emitted_indices_spec steps') as [Hasc' Hset'].
    apply strictly_ascending_unique; [assumption | assumption |].
    intros i. now rewrite Hset', Hset.
  - unfold emitted_indices. intros att H. unfold _serialize_attachment in H.
    destruct (mapM _ (sorted (_rows kb))) as [rows|] eqn:E;
      cbn [bind] in H; [|discriminate].
    injection H as <-. cbn [inline_keyboard].
    apply Forall2_map_l. apply mapM_Forall2 in E.
    eapply Forall2_impl_In; [|exact E]. cbv beta.
    intros [i row] wire Hir Hwire. exists row. split; [|assumption].
    apply lookup_In; [assumption|].
    eapply Permutation_in; [exact Hperm | assumption].
  - intros H. unfold _serialize_attachment.
    destruct (mapM_Ok (fun ir => _get_content get_hmac c (snd ir))
                (sorted (_rows kb))) as [rows ->].
    + intros [i row] Hir. apply (H i row).
      apply lookup_In; [assumption|].
      eapply Permutation_in; [exact Hperm | assumption].
    + cbn [bind]. now eexists.
Qed.

End Keyboard.

(** The rows 2, 0 and 1, accessed in that order, are emitted as 0, 1, 2. *)
Example rows_2_0_1 :
  emitted_indices (build [Access 2; Access 0; Access 1]) = [0; 1; 2]%Z.
Proof. reflexivity. Qed.

(** A keyboard with buttons in the rows 0 and 5 only: two rows, the one
    of index 0 first. *)
Example rows_0_5 :
  _serialize_attachment hmac_md5
    {| ctx_bot := secret; ctx_chat := chat42; component_name := lit "comp" |}
    (build [Url 5 (lit "five") (lit "https://e.org/5");
            Url 0 (lit "zero") (lit "https://e.org/0")])
  = Ok {| inline_keyboard :=
            [[[("text"%string, lit "zero"); ("url"%string, lit "https://e.org/0")]];
             [[("text"%string, lit "five"); ("url"%string, lit "https://e.org/5")]]] |}.
Proof. reflexivity. Qed.

(** ** The dispatcher *)

Section Dispatcher.

Context {Bot : Type}.
Variables (bot : Bot) (update : Update) (name : bytes) (data : option pystr).

Lemma called_app (tr1 tr2 : list (event Bot)) :
  called (tr1 ++ tr2) = called tr1 ++ called tr2.
Proof.
  induction tr1 as [|[l m|h b u n d] tr1 IH]; cbn [app called];
    [reflexivity | assumption | now rewrite IH].
Qed.

Lemma hooks_called_app (tr1 tr2 : list (event Bot)) :
  hooks_called (tr1 ++ tr2) = hooks_called tr1 ++ hooks_called tr2.
Proof.
  induction tr1 as [|[l m|h b u n d] tr1 IH]; cbn [app hooks_called];
    [reflexivity | assumption | now rewrite IH].
Qed.

(** The loop over hooks none of which answers [True]. *)
Lemma run_hooks_none (hooks : list (Hook Bot)) :
  (forall g, In g hooks ->
     exists v, call g bot update name data = Ok v /\ is_True v = false) ->
  exists tr,
    run_hooks bot update name data hooks
    = (tr ++ [Log DEBUG (msg_unclaimed update)], Ok tt) /\
    called tr = map (fun g => Called g bot update name data) hooks.
Proof.
  induction hooks as [|h hooks IH]; intros Hnone.
  - exists []. split; reflexivity.
  - destruct (Hnone h (or_introl eq_refl)) as (v & Hv & Hnot).
    destruct IH as (tr & Htr & Hcalled); [intros; apply Hnone; now right|].
    cbn [run_hooks]. rewrite Hv, Hnot, Htr.
    exists ([Log DEBUG (msg_processing update h);
             Called h bot update name data] ++ tr).
    split; [now rewrite <- app_assoc|].
    rewrite called_app, Hcalled. reflexivity.
Qed.

(** The loop over hooks the first of which to answer [True] is [h]. *)
Lemma run_hooks_first (pre post : list (Hook Bot)) (h : Hook Bot) :
  (forall g, In g pre ->
     exists v, call g bot update name data = Ok v /\ is_True v = false) ->
  call h bot update name data = Ok (PyBool true) ->
  exists tr,
    run_hooks bot update name data (pre ++ h :: post) = (tr, Ok tt) /\
    called tr = map (fun g => Called g bot update name data) (pre ++ [h]).
Proof.
  induction pre as [|g pre IH]; intros Hpre Hh.
  - cbn [app run_hooks]. rewrite Hh. cbn [is_True].
    eexists. split; reflexivity.
  - destruct (Hpre g (or_introl eq_refl)) as (v & Hv & Hnot).
    destruct IH as (tr & Htr & Hcalled);
      [intros; apply Hpre; now right | assumption |].
    cbn [app run_hooks]. rewrite Hv, Hnot, Htr.
    eexists. split; [reflexivity|].
    cbn [app called map]. now rewrite Hcalled.
Qed.

(** The hooks that the loop calls are the first ones of the list, each
    called with the same arguments, and only the last of them can have
    answered [True]. *)
Lemma run_hooks_prefix (hooks : list (Hook Bot)) :
  let tr := fst (run_hooks bot update name data hooks) in
  called tr = map (fun g => Called g bot update name data) (hooks_called tr)
  /\ (exists rest, hooks = hooks_called tr ++ rest)
  /\ (forall pre g post,
        hooks_called tr = pre ++ g :: post -> post <> [] ->
        handles g bot update name data = false).
Proof.
  induction hooks as [|h hooks (IH1 & (rest & IH2) & IH3)]; cbv zeta.
  - cbn. repeat split; [now exists [] |].
    intros [|? ?] ? ? H; discriminate.
  - cbn [run_hooks].
    destruct (call h bot update name data) as [v|e] eqn:Hv.
    + destruct (is_True v) eqn:Hnot.
      * cbn. repeat split; [now exists hooks|].
        intros [|? [|? ?]] ? ? H; try discriminate.
        injection H as _ <-. congruence.
      * cbv zeta in IH1, IH2, IH3.
        destruct (run_hooks bot update name data hooks) as [tr r].
        cbn [fst] in *. cbn [app called hooks_called map].
        repeat split.
        -- now rewrite IH1.
        -- exists rest. now rewrite IH2 at 1.
        -- intros [|g' pre] g post H Hpost; injection H as <- H.
           ++ unfold handles. now rewrite Hv.
           ++ now apply (IH3 pre g post).
    + cbn. repeat split; [now exists hooks|].
      intros [|? [|? ?]] ? ? H; try discriminate.
      injection H as _ <-. congruence.
Qed.

(** At most one of the hooks that the loop calls answers [True]. *)
Lemma run_hooks_at_most_one (hooks : list (Hook Bot)) :
  (List.length
     (filter (fun g => handles g bot update name data)
        (hooks_called (fst (run_hooks bot update name data hooks))))
   <= 1)%nat.
Proof.
  destruct (run_hooks_prefix hooks) as (_ & _ & H). cbv zeta in H.
  induction (hooks_called (fst (run_hooks bot update name data hooks)))
    as [|g l IH]; cbn [filter List.length]; [lia|].
  destruct l as [|g' l].
  - destruct (handles g bot update name data); cbn; lia.
  - rewrite (H [] g (g' :: l) eq_refl) by discriminate.
    apply IH. intros pre g0 post E. apply (H (g :: pre) g0 post).
    now rewrite E.
Qed.

End Dispatcher.

Section DispatcherClaims.

Context {Bot : Type}.
Variable get_hmac : Bot -> bytes -> bytes.

(** C6, as amended.  When the data of the update decodes to
    [(name, data)]: if [h] is the first registered hook to answer
    [True], the hooks before it answering anything else, then the hooks
    before [h] and then [h] are called, in registration order, each with
    [(bot, update, name, data)], no hook after [h] is called, and
    [process] returns; and whatever the hooks are, at most one of those
    called answers [True]. *)
Theorem first_match (bot : Bot) (chains : Chains Bot) (update : Update)
    (name : bytes) (data : option pystr) :
  parse_callback_data get_hmac bot (chat update) (_data update)
  = Ok (name, data) ->
  (forall pre h post,
     callbacks chains = pre ++ h :: post ->
     (forall g, In g pre ->
        exists v, call g bot update name data = Ok v /\ is_True v = false) ->
     call h bot update name data = Ok (PyBool true) ->
     exists tr,
       process get_hmac bot chains update = (tr, Ok tt) /\
       called tr = map (fun g => Called g bot update name data) (pre ++ [h]))
  /\
  (List.length
     (filter (fun g => handles g bot update name data)
        (hooks_called (fst (process get_hmac bot chains update))))
   <= 1)%nat.
Proof.
  intros Hparse. unfold process. cbv zeta. rewrite Hparse. split.
  - intros pre h post -> Hpre Hh. now apply run_hooks_first.
  - apply run_hooks_at_most_one.
Qed.

(** C7.  When decoding the data of the update raises
    [TamperedMessageError], [process] logs one warning, calls no hook and
    returns; when the data decodes and no hook answers [True], every hook
    is called in turn, [process] returns and its last act is to log that
    no hook processed the update. *)
Theorem tamper_handling (bot : Bot) (chains : Chains Bot) (update : Update) :
  (parse_callback_data get_hmac bot (chat update) (_data update)
   = Raise TamperedMessageError ->
   process get_hmac bot chains update
   = ([Log WARN (msg_tampered update)], Ok tt))
  /\
  (forall name data,
     parse_callback_data get_hmac bot (chat update) (_data update)
     = Ok (name, data) ->
     (forall g, In g (callbacks chains) ->
        exists v, call g bot update name data = Ok v /\ is_True v = false) ->
     exists tr,
       process get_hmac bot chains update
       = (tr ++ [Log DEBUG (msg_unclaimed update)], Ok tt) /\
       called tr
       = map (fun g => Called g bot update name data) (callbacks chains)).
Proof.
  split.
  - intros H. unfold process. cbv zeta. now rewrite H.
  - intros name data H Hnone. unfold process. cbv zeta. rewrite H.
    now apply run_hooks_none.
Qed.

End DispatcherClaims.

(** C6 at the hooks [A], [B] and [C] of the claim. *)
Lemma first_match_A_B_C :
  exists tr,
    process hmac_md5 secret
      {| callbacks := [answering "A" (PyBool false);
                       answering "B" (PyBool true);
                       answering "C" (PyBool true)] |} update7
    = (tr, Ok tt) /\
    map hook_name (hooks_called tr) = [lit "A"; lit "B"].
Proof.
  destruct (first_match hmac_md5 secret
              {| callbacks := [answering "A" (PyBool false);
                               answering "B" (PyBool true);
                               answering "C" (PyBool true)] |} update7
              [x6e; xc6; x87; xb9; x8b; x23; x49; x86] (Some hello))
    as [H _].
  - vm_compute. reflexivity.
  - destruct (H [answering "A" (PyBool false)] (answering "B" (PyBool true))
                [answering "C" (PyBool true)]) as (tr & Htr & Hcalled).
    + reflexivity.
    + intros g [<-|[]]. exists (PyBool false). split; reflexivity.
    + reflexivity.
    + exists tr. split; [exact Htr|].
      revert Hcalled. clear.
      generalize [x6e; xc6; x87; xb9; x8b; x23; x49; x86].
      intros nm Hcalled.
      assert (forall t : list (event bytes),
                hooks_called t = hooks_called (called t)) as Hproj.
      { induction t as [|[l m|h b u n d] t IH]; cbn [called hooks_called];
          congruence. }
      rewrite Hproj, Hcalled. reflexivity.
Defined.

(** C6 as stated fails: a hook that answers [1], which is true in a
    condition, does not end the scan; the hook after it is called. *)
Lemma truthy_answer_goes_on :
  truthy (PyInt 1) = true /\
  map hook_name
    (hooks_called
       (fst (process hmac_md5 secret
               {| callbacks := [answering "A" (PyInt 1);
                                answering "B" (PyBool true)] |} update7)))
  = [lit "A"; lit "B"].
Proof. split; vm_compute; reflexivity. Qed.

(** C7 at a tampered update and at an update that no hook takes. *)
Lemma tamper_handling_updates :
  process hmac_md5 secret
    {| callbacks := [answering "A" (PyBool true)] |} update8
  = ([Log WARN (lit "The user tampered with the #8 update's data. Skipped it.")],
     Ok tt)
  /\
  exists tr,
    process hmac_md5 secret
      {| callbacks := [answering "A" PyNone; answering "B" (PyBool false)] |}
      update7
    = (tr ++ [Log DEBUG (lit "No hook actually processed the #7 update.")],
       Ok tt).
Proof.
  split.
  - apply (tamper_handling hmac_md5 secret
             {| callbacks := [answering "A" (PyBool true)] |} update8).
    vm_compute. reflexivity.
  - destruct (tamper_handling hmac_md5 secret
                {| callbacks := [answering "A" PyNone;
                                 answering "B" (PyBool false)] |} update7)
      as [_ H].
    destruct (H [x6e; xc6; x87; xb9; x8b; x23; x49; x86] (Some hello))
      as (tr & Htr & _).
    + vm_compute. reflexivity.
    + intros g [<-|[<-|[]]]; eexists; split; reflexivity.
    + exists tr. exact Htr.
Defined.

(** ** Further instances *)

(** An ASCII string of 31 characters or fewer never decodes. *)
Lemma short_ascii_tampered {Bot} (get_hmac : Bot -> bytes -> bytes)
    (bot : Bot) (chat : Chat) (raw : pystr) :
  ascii_only raw ->
  (List.length raw <= 31)%nat ->
  parse_callback_data get_hmac bot chat raw = Raise TamperedMessageError.
Proof.
  intros Hascii Hlen.
  rewrite (parse_callback_data_encoded get_hmac bot chat raw
             (map byte_of_N raw) (str_encode_ascii_only raw Hascii)).
  rewrite length_map.
  now destruct (Nat.ltb_spec (List.length raw) 32); [|lia].
Qed.

(** A raw string that holds a lone surrogate has no UTF-8 encoding, and
    [raw.encode] raises before anything is checked. *)
Example lone_surrogate :
  parse_callback_data hmac_md5 secret chat42 [0xD800]
  = Raise UnicodeEncodeError.
Proof. reflexivity. Qed.

(** A row that was accessed and given no button is emitted, empty. *)
Example accessed_row_is_emitted :
  _serialize_attachment hmac_md5
    {| ctx_bot := secret; ctx_chat := chat42; component_name := lit "comp" |}
    (build [Access 3])
  = Ok {| inline_keyboard := [[]] |}.
Proof. reflexivity. Qed.

(** A callback button gets its token when the keyboard is serialized,
    for the chat of the context. *)
Example callback_button :
  _serialize_attachment hmac_md5
    {| ctx_bot := secret; ctx_chat := chat42; component_name := lit "comp" |}
    (build [Callback 0 (lit "Go") (lit "cb") (Some hello)])
  = Ok {| inline_keyboard :=
            [[[("text"%string, lit "Go");
               ("callback_data"%string,
                lit "qSoGTLXyfOFJggQ698Diqm7Gh7mLI0mGh" ++ [233]
                ++ lit "llo")]]] |}.
Proof. vm_compute. reflexivity. Qed.

(** C8 at a keyboard with buttons in the rows 5 and 0, filled in that
    order: the attachment holds the row 0, then the row 5. *)
Lemma serialization_order_0_5 :
  Forall2
    (fun i wire =>
       exists row,
         lookup i (_rows (build [Url 5 (lit "five") (lit "https://e.org/5");
                                 Url 0 (lit "zero") (lit "https://e.org/0")]))
         = Some row /\
         _get_content hmac_md5
           {| ctx_bot := secret; ctx_chat := chat42;
              component_name := lit "comp" |} row = Ok wire)
    [0; 5]%Z
    [[[("text"%string, lit "zero"); ("url"%string, lit "https://e.org/0")]];
     [[("text"%string, lit "five"); ("url"%string, lit "https://e.org/5")]]].
Proof.
  exact (proj1 (proj2 (proj2 (proj2
           (serialization_order hmac_md5
              {| ctx_bot := secret; ctx_chat := chat42;
                 component_name := lit "comp" |}
              [Url 5 (lit "five") (lit "https://e.org/5");
               Url 0 (lit "zero") (lit "https://e.org/0")]))))
           _ rows_0_5).
Defined.

(** * Further properties *)

(** ** [bytes.decode] followed by [str.encode] *)

Lemma encode_char_1 (n0 : N) :
  n0 < 0x80 -> utf8_encode_char n0 = Ok [byte_of_N n0].
Proof. intros H. unfold utf8_encode_char. now split_tests. Qed.

Lemma encode_char_2 (n0 n1 : N) :
  0xC2 <= n0 < 0xE0 -> is_cont n1 = true ->
  utf8_encode_char ((n0 - 0xC0) * 64 + (n1 - 0x80))
  = Ok [byte_of_N n0; byte_of_N n1].
Proof.
  unfold is_cont. intros H0 H1. apply andb_true_iff in H1.
  destruct H1 as [H1 H1']. apply N.leb_le in H1, H1'.
  unfold utf8_encode_char. split_tests.
  repeat f_equal; lia.
Qed.

Lemma encode_char_3 (n0 n1 n2 : N) :
  0xE0 <= n0 < 0xF0 ->
  second_of_3 n0 n1 = true -> is_cont n2 = true ->
  utf8_encode_char ((n0 - 0xE0) * 4096 + (n1 - 0x80) * 64 + (n2 - 0x80))
  = Ok [byte_of_N n0; byte_of_N n1; byte_of_N n2].
Proof.
  unfold is_cont. intros H0 H1 H2. apply andb_true_iff in H2.
  destruct H2 as [H2 H2']. apply N.leb_le in H2, H2'.
  assert (0x80 <= n1 <= 0xBF /\ (n0 = 0xE0 -> 0xA0 <= n1)
          /\ (n0 = 0xED -> n1 <= 0x9F)) as (Hn1 & HE0 & HED).
  { unfold second_of_3, is_cont in H1. revert H1.
    destruct (N.eqb_spec n0 0xE0); [|destruct (N.eqb_spec n0 0xED)];
      intros H1; apply andb_true_iff in H1; destruct H1 as [A B];
      apply N.leb_le in A, B; lia. }
  clear H1.
  assert ((n0 - 0xE0) * 4096 + (n1 - 0x80) * 64 + (n2 - 0x80) < 0xD800 \/
          0xDFFF < (n0 - 0xE0) * 4096 + (n1 - 0x80) * 64 + (n2 - 0x80))
    as Hs by lia.
  assert (0x800 <= (n0 - 0xE0) * 4096 + (n1 - 0x80) * 64 + (n2 - 0x80)
          < 0x10000) as Hr by lia.
  assert (((n0 - 0xE0) * 4096 + (n1 - 0x80) * 64 + (n2 - 0x80)) / 4096
          = n0 - 0xE0) as E0 by lia.
  assert ((((n0 - 0xE0) * 4096 + (n1 - 0x80) * 64 + (n2 - 0x80)) / 64)
          mod 64 = n1 - 0x80) as E1 by lia.
  assert (((n0 - 0xE0) * 4096 + (n1 - 0x80) * 64 + (n2 - 0x80)) mod 64
          = n2 - 0x80) as E2 by lia.
  unfold utf8_encode_char, is_surrogate. rewrite E0, E1, E2.
  generalize dependent ((n0 - 0xE0) * 4096 + (n1 - 0x80) * 64 + (n2 - 0x80)).
  intros c Hs Hr. split_tests; cbn [andb]; intros; repeat f_equal; lia.
Qed.

Lemma encode_char_4 (n0 n1 n2 n3 : N) :
  0xF0 <= n0 < 0xF5 ->
  second_of_4 n0 n1 = true -> is_cont n2 = true -> is_cont n3 = true ->
  utf8_encode_char ((n0 - 0xF0) * 262144 + (n1 - 0x80) * 4096
                    + (n2 - 0x80) * 64 + (n3 - 0x80))
  = Ok [byte_of_N n0; byte_of_N n1; byte_of_N n2; byte_of_N n3].
Proof.
  unfold is_cont. intros H0 H1 H2 H3.
  apply andb_true_iff in H2, H3.
  destruct H2 as [H2 H2']. destruct H3 as [H3 H3'].
  apply N.leb_le in H2, H2', H3, H3'.
  assert (0x80 <= n1 <= 0xBF /\ (n0 = 0xF0 -> 0x90 <= n1)
          /\ (n0 = 0xF4 -> n1 <= 0x8F)) as (Hn1 & HF0 & HF4).
  { unfold second_of_4, is_cont in H1. revert H1.
    destruct (N.eqb_spec n0 0xF0); [|destruct (N.eqb_spec n0 0xF4)];
      intros H1; apply andb_true_iff in H1; destruct H1 as [A B];
      apply N.leb_le in A, B; lia. }
  clear H1.
  set (c := (n0 - 0xF0) * 262144 + (n1 - 0x80) * 4096
            + (n2 - 0x80) * 64 + (n3 - 0x80)).
  assert (0x10000 <= c < 0x110000) as Hr by (unfold c; lia).
  assert (c / 262144 = n0 - 0xF0) as E0 by (unfold c; lia).
  assert ((c / 4096) mod 64 = n1 - 0x80) as E1 by (unfold c; lia).
  assert ((c / 64) mod 64 = n2 - 0x80) as E2 by (unfold c; lia).
  assert (c mod 64 = n3 - 0x80) as E3 by (unfold c; lia).
  unfold utf8_encode_char. rewrite E0, E1, E2, E3.
  clearbody c. split_tests.
  repeat f_equal; lia.
Qed.

(** Takes the successful steps of a [bind] apart. *)
Ltac bind_inv H :=
  let a := fresh "a" in
  let Ha := fresh "Ha" in
  apply bind_Ok in H; destruct H as (a & Ha & H).

(** [bs.decode("utf-8").encode("utf-8") == bs]. *)
Lemma encode_decode (bs : bytes) (s : pystr) :
  bytes_decode bs = Ok s -> str_encode s = Ok bs.
Proof.
  remember (List.length bs) as n eqn:Hn.
  assert (List.length bs <= n)%nat as Hle by lia. clear Hn.
  revert bs s Hle.
  induction n as [|n IH]; intros bs s Hle H.
  - destruct bs; [now injection H as <- | cbn [List.length] in Hle; lia].
  - destruct bs as [|b0 r0]; [now injection H as <-|].
    rewrite bytes_decode_cons in H. cbv zeta in H.
    cbn [List.length] in Hle.
    destruct (N.ltb_spec (Byte.to_N b0) 0x80) as [L0|L0].
    { bind_inv H. injection H as <-. cbn [str_encode].
      rewrite encode_char_1 by assumption.
      rewrite (IH r0 a) by (assumption || lia).
      cbn [bind app]. now rewrite byte_of_N_to_N. }
    destruct (N.ltb_spec (Byte.to_N b0) 0xC2) as [L1|L1]; [discriminate|].
    destruct (N.ltb_spec (Byte.to_N b0) 0xE0) as [L2|L2].
    { destruct r0 as [|b1 r1]; [discriminate|].
      destruct (is_cont (Byte.to_N b1)) eqn:C1; [|discriminate].
      bind_inv H. injection H as <-. cbn [str_encode List.length] in *.
      rewrite encode_char_2 by (assumption || lia).
      rewrite (IH r1 a) by (assumption || lia).
      cbn [bind app]. now rewrite !byte_of_N_to_N. }
    destruct (N.ltb_spec (Byte.to_N b0) 0xF0) as [L3|L3].
    { destruct r0 as [|b1 [|b2 r2]]; try discriminate.
      destruct (second_of_3 (Byte.to_N b0) (Byte.to_N b1)) eqn:C1;
        [|discriminate].
      destruct (is_cont (Byte.to_N b2)) eqn:C2; [|discriminate].
      cbn [andb] in H.
      bind_inv H. injection H as <-. cbn [str_encode List.length] in *.
      rewrite encode_char_3 by (assumption || lia).
      rewrite (IH r2 a) by (assumption || lia).
      cbn [bind app]. now rewrite !byte_of_N_to_N. }
    destruct (N.ltb_spec (Byte.to_N b0) 0xF5) as [L4|L4]; [|discriminate].
    destruct r0 as [|b1 [|b2 [|b3 r3]]]; try discriminate.
    destruct (second_of_4 (Byte.to_N b0) (Byte.to_N b1)) eqn:C1;
      [|discriminate].
    destruct (is_cont (Byte.to_N b2)) eqn:C2; [|discriminate].
    destruct (is_cont (Byte.to_N b3)) eqn:C3; [|discriminate].
    cbn [andb] in H.
    bind_inv H. injection H as <-. cbn [str_encode List.length] in *.
    rewrite encode_char_4 by (assumption || lia).
    rewrite (IH r3 a) by (assumption || lia).
    cbn [bind app]. now rewrite !byte_of_N_to_N.
Qed.

Lemma utf8_encode_char_raises (c : N) (e : exn) :
  utf8_encode_char c = Raise e -> e = UnicodeEncodeError.
Proof.
  unfold utf8_encode_char.
  repeat match goal with
  | |- context [if ?c then _ else _] => destruct c
  end; congruence.
Qed.

Lemma str_encode_raises (s : pystr) (e : exn) :
  str_encode s = Raise e -> e = UnicodeEncodeError.
Proof.
  induction s as [|c s IH]; cbn [str_encode]; [discriminate|].
  destruct (utf8_encode_char c) as [b|e'] eqn:E; cbn [bind].
  - destruct (str_encode s) as [bs|e'']; cbn [bind]; [discriminate|].
    intros [= <-]. now apply IH.
  - intros [= <-]. now apply (utf8_encode_char_raises c).
Qed.

(** A decoded string is empty only if the bytes are. *)
Lemma bytes_decode_nil (bs : bytes) : bytes_decode bs = Ok [] -> bs = [].
Proof.
  intros H. apply encode_decode in H. now injection H as <-.
Qed.

(** ** More on base64 *)

Lemma held_bits_other (quad_pos : N) :
  quad_pos <> 0 -> quad_pos <> 1 -> quad_pos <> 2 ->
  held_bits quad_pos = 2%nat.
Proof.
  intros H0 H1 H2. unfold held_bits.
  destruct (N.eqb_spec quad_pos 0); [contradiction|].
  destruct (N.eqb_spec quad_pos 1); [contradiction|].
  destruct (N.eqb_spec quad_pos 2); [contradiction|reflexivity].
Qed.

(** Eight bits go out for every six that come in. *)
Lemma a2b_loop_length (s : bytes) (quad_pos leftchar pads : N) (out : bytes) :
  a2b_loop s quad_pos leftchar pads = Ok out ->
  (8 * List.length out <= 6 * List.length s + held_bits quad_pos)%nat.
Proof.
  revert quad_pos leftchar pads out.
  induction s as [|ch s IH]; intros quad_pos leftchar pads out;
    cbn [a2b_loop List.length].
  - destruct (N.eqb_spec quad_pos 0) as [->|]; [|discriminate].
    intros [= <-]. cbn. lia.
  - destruct (Byte.eqb ch "="%byte).
    { destruct (N.leb_spec 2 quad_pos).
      - destruct (N.leb_spec 4 (quad_pos + (pads + 1))).
        + intros [= <-]. cbn [List.length]. lia.
        + intros H1. apply IH in H1. lia.
      - intros H1. apply IH in H1. lia. }
    destruct (b64_val ch) as [v|]; [|intros H; apply IH in H; lia].
    destruct (N.eqb_spec quad_pos 0) as [->|N0].
    { intros H. apply IH in H.
      change (held_bits 1) with 6%nat in H.
      change (held_bits 0) with 0%nat. lia. }
    destruct (N.eqb_spec quad_pos 1) as [->|N1].
    { destruct (a2b_loop s 2 (v mod 16) 0) as [r|] eqn:E; cbn [bind];
        [|discriminate].
      intros [= <-]. apply IH in E.
      change (held_bits 2) with 4%nat in E.
      change (held_bits 1) with 6%nat. cbn [List.length]. lia. }
    destruct (N.eqb_spec quad_pos 2) as [->|N2].
    { destruct (a2b_loop s 3 (v mod 4) 0) as [r|] eqn:E; cbn [bind];
        [|discriminate].
      intros [= <-]. apply IH in E.
      change (held_bits 3) with 2%nat in E.
      change (held_bits 2) with 4%nat. cbn [List.length]. lia. }
    destruct (a2b_loop s 0 0 0) as [r|] eqn:E; cbn [bind]; [|discriminate].
    intros [= <-]. apply IH in E.
    change (held_bits 0) with 0%nat in E.
    rewrite held_bits_other by assumption. cbn [List.length]. lia.
Qed.

Lemma b64decode_length (s out : bytes) :
  b64decode s = Ok out -> (4 * List.length out <= 3 * List.length s)%nat.
Proof.
  intros H. apply a2b_loop_length in H. cbn in H. lia.
Qed.

(** The encoding of whole groups of three octets takes no part in what
    follows it. *)
Lemma b64encode_app (s1 s2 : bytes) (n : nat) :
  List.length s1 = (3 * n)%nat ->
  b64encode (s1 ++ s2) = b64encode s1 ++ b64encode s2.
Proof.
  revert n. induction s1 as [|a|a b|a b c s1 IH] using list_ind3;
    intros n Hn; cbn [List.length] in Hn.
  - reflexivity.
  - lia.
  - lia.
  - destruct n as [|n]; [lia|].
    cbn [app]. change (b64encode (a :: b :: c :: s1 ++ s2))
      with (let a' := Byte.to_N a in
            let b' := Byte.to_N b in
            let c' := Byte.to_N c in
            b64_char (a' / 4) :: b64_char ((a' mod 4) * 16 + b' / 16)
            :: b64_char ((b' mod 16) * 4 + c' / 64) :: b64_char (c' mod 64)
            :: b64encode (s1 ++ s2)).
    cbv zeta. rewrite (IH n) by lia. reflexivity.
Qed.

(** After whole groups the decoder is where it started. *)
Lemma a2b_loop_b64encode_app (s rest : bytes) (n : nat) (lc pads : N) :
  List.length s = (3 * n)%nat ->
  a2b_loop (b64encode s ++ rest) 0 lc pads =
  r <- a2b_loop rest 0 0 0 ;; Ok (s ++ r).
Proof.
  revert n lc pads.
  induction s as [|a|a b|a b c s IH] using list_ind3; intros n lc pads Hn;
    cbn [List.length] in Hn; try lia.
  - destruct n; [|lia]. cbn [b64encode app].
    assert (forall l p, a2b_loop rest 0 l p = a2b_loop rest 0 0 0) as H0.
    { clear. induction rest as [|ch rest IH]; intros l p; [reflexivity|].
      cbn [a2b_loop]. cbn [N.leb N.compare N.eqb].
      destruct (Byte.eqb ch "="%byte); [apply IH|].
      destruct (b64_val ch); [reflexivity | apply IH]. }
    rewrite H0. destruct (a2b_loop rest 0 0 0); reflexivity.
  - destruct n as [|n]; [lia|].
    cbn [b64encode]. cbv zeta. cbn [app].
    pose proof (to_N_lt_256 a). pose proof (to_N_lt_256 b).
    pose proof (to_N_lt_256 c).
    rewrite !a2b_loop_char by lia. cbn [N.eqb Pos.eqb].
    rewrite (IH n) by lia.
    destruct (a2b_loop rest 0 0 0) as [r|e]; cbn [bind app]; [|reflexivity].
    f_equal. f_equal; [|f_equal; [|f_equal]]; apply byte_of_N_eq; lia.
Qed.

(** Octets outside the alphabet, other than the pad, are skipped. *)
Lemma a2b_loop_skip (junk rest : bytes) (quad_pos leftchar pads : N) :
  Forall (fun ch => Byte.eqb ch "="%byte = false /\ b64_val ch = None) junk ->
  a2b_loop (junk ++ rest) quad_pos leftchar pads
  = a2b_loop rest quad_pos leftchar pads.
Proof.
  induction 1 as [|ch junk [Hpad Hval] _ IH]; [reflexivity|].
  cbn [app a2b_loop]. now rewrite Hpad, Hval.
Qed.

Lemma b64encode_alphabet (s : bytes) (n : nat) :
  List.length s = (3 * n)%nat ->
  Forall (fun ch => b64_val ch <> None) (b64encode s).
Proof.
  revert n. induction s as [|a|a b|a b c s IH] using list_ind3;
    intros n Hn; cbn [List.length] in Hn; try lia.
  - constructor.
  - destruct n as [|n]; [lia|]. cbn [b64encode]. cbv zeta.
    pose proof (to_N_lt_256 a). pose proof (to_N_lt_256 b).
    pose proof (to_N_lt_256 c).
    repeat (apply Forall_cons;
            [rewrite b64_val_char by lia; discriminate|]).
    apply (IH n). lia.
Qed.

(** ** More on callback data *)

Lemma app_inv_length {A} (a1 a2 b1 b2 : list A) :
  List.length a1 = List.length a2 ->
  a1 ++ b1 = a2 ++ b2 -> a1 = a2 /\ b1 = b2.
Proof.
  revert a2. induction a1 as [|x a1 IH]; intros [|y a2] Hlen H;
    try discriminate; [now split|].
  cbn [app] in H. injection H as <- H. cbn [List.length] in Hlen.
  destruct (IH a2) as [<- <-]; [lia | assumption | now split].
Qed.

(** Two strings free of [z] that are followed by [z] end where the first
    [z] is. *)
Lemma app_inv_sep {A} (z : A) (a1 a2 b1 b2 : list A) :
  ~ In z a1 -> ~ In z a2 ->
  a1 ++ z :: b1 = a2 ++ z :: b2 -> a1 = a2 /\ b1 = b2.
Proof.
  revert a2. induction a1 as [|x a1 IH]; intros [|y a2] H1 H2 H;
    cbn [app] in H.
  - injection H as <-. now split.
  - injection H as <- _. exfalso. apply H2. now left.
  - injection H as -> _. exfalso. apply H1. now left.
  - injection H as <- H.
    destruct (IH a2) as [<- <-]; try assumption; [| |now split].
    + intros Hin. apply H1. now right.
    + intros Hin. apply H2. now right.
Qed.

Section MoreOnCallbackData.

Context {Bot : Type}.
Variable get_hmac : Bot -> bytes -> bytes.

(** What a successful call of [get_callback_data] went through. *)
Lemma get_callback_data_inv (bot : Bot) (chat : Chat) (n : pystr)
    (p : option pystr) (tok : pystr) :
  get_callback_data get_hmac bot chat n p = Ok tok ->
  exists nb pb,
    str_encode n = Ok nb /\
    str_encode (or_empty p) = Ok pb /\
    (List.length pb <= 32)%nat /\
    tok = token get_hmac bot chat (firstn 8 (DIGEST nb)) pb (or_empty p).
Proof.
  intros H0. pose proof H0 as H.
  unfold get_callback_data, hashed_callback_name in H.
  destruct (str_encode n) as [nb|] eqn:Hn; [|discriminate].
  cbn [bind] in H. cbv zeta in H.
  destruct (str_encode (or_empty p)) as [pb|] eqn:Hp; [|discriminate].
  cbn [bind] in H.
  destruct (Nat.ltb_spec 32 (List.length pb)) as [|Hlen]; [discriminate|].
  exists nb, pb. repeat split; try assumption.
  rewrite (get_callback_data_Ok get_hmac bot chat n p nb pb Hn Hp Hlen)
    in H0.
  now injection H0.
Qed.

End MoreOnCallbackData.

Section CallbackDataProperties.

Context {Bot : Type}.
Variable get_hmac : Bot -> bytes -> bytes.

(** X1.  [get_signature] never raises, and for names of one length the
    byte string that it signs determines the name, the chat id and the
    data. *)
Theorem signature_input_unambiguous (bot : Bot) (c1 c2 : Chat)
    (n1 n2 d1 d2 : bytes) :
  List.length n1 = List.length n2 ->
  exists m1 m2,
    get_signature get_hmac bot c1 n1 d1 = Ok (get_hmac bot m1) /\
    get_signature get_hmac bot c2 n2 d2 = Ok (get_hmac bot m2) /\
    (m1 = m2 -> n1 = n2 /\ chat_id c1 = chat_id c2 /\ d1 = d2).
Proof.
  intros Hlen.
  exists (signed_message n1 c1 d1), (signed_message n2 c2 d2).
  split; [apply get_signature_Ok|]. split; [apply get_signature_Ok|].
  unfold signed_message. intros H.
  apply app_inv_length in H; [|assumption]. destruct H as [<- H].
  cbn [app] in H. injection H as H.
  apply app_inv_sep in H; try apply int_bytes_no_nul.
  destruct H as [Hc <-]. apply int_bytes_inj in Hc. now repeat split.
Qed.

(** [get_callback_data] by cases on what can go wrong. *)
Lemma get_callback_data_cases (bot : Bot) (chat : Chat) (n : pystr)
    (p : option pystr) :
  get_callback_data get_hmac bot chat n p =
  match str_encode n with
  | Raise _ => Raise UnicodeEncodeError
  | Ok nb =>
      match str_encode (or_empty p) with
      | Raise _ => Raise UnicodeEncodeError
      | Ok pb =>
          if (32 <? List.length pb)%nat
          then Raise (ValueError (too_big (List.length pb)))
          else Ok (token get_hmac bot chat (firstn 8 (DIGEST nb)) pb
                     (or_empty p))
      end
  end.
Proof.
  destruct (str_encode n) as [nb|e1] eqn:Hn.
  - destruct (str_encode (or_empty p)) as [pb|e2] eqn:Hp.
    + destruct (Nat.ltb_spec 32 (List.length pb)) as [Hlen|Hlen].
      * now apply (get_callback_data_too_big get_hmac bot chat n p nb pb).
      * now apply (get_callback_data_Ok get_hmac bot chat n p nb pb).
    + pose proof (str_encode_raises _ _ Hp) as ->.
      unfold get_callback_data, hashed_callback_name.
      rewrite Hn. cbn [bind]. cbv zeta. now rewrite Hp.
  - pose proof (str_encode_raises _ _ Hn) as ->.
    unfold get_callback_data, hashed_callback_name. now rewrite Hn.
Qed.

Lemma get_callback_data_raises (bot : Bot) (chat : Chat) (n : pystr)
    (p : option pystr) (e : exn) :
  get_callback_data get_hmac bot chat n p = Raise e ->
  e = UnicodeEncodeError \/
  exists k, (32 < k)%nat /\ e = ValueError (too_big k).
Proof.
  rewrite get_callback_data_cases.
  destruct (str_encode n); [|intros [= <-]; now left].
  destruct (str_encode (or_empty p)) as [pb|]; [|intros [= <-]; now left].
  destruct (Nat.ltb_spec 32 (List.length pb)); [|discriminate].
  intros [= <-]. right. now exists (List.length pb).
Qed.

(** X2.  [get_callback_data] raises nothing but [UnicodeEncodeError],
    when the name or the payload has no UTF-8 encoding, and the
    [ValueError] of a payload of more than 32 bytes. *)
Theorem get_callback_data_errors (bot : Bot) (chat : Chat) (n : pystr)
    (p : option pystr) (e : exn) :
  get_callback_data get_hmac bot chat n p = Raise e ->
  (e = UnicodeEncodeError /\
   (str_encode n = Raise UnicodeEncodeError \/
    str_encode (or_empty p) = Raise UnicodeEncodeError)) \/
  (exists pb,
     str_encode (or_empty p) = Ok pb /\
     (32 < List.length pb)%nat /\
     e = ValueError (too_big (List.length pb))).
Proof.
  rewrite get_callback_data_cases.
  destruct (str_encode n) as [nb|e1] eqn:Hn.
  - destruct (str_encode (or_empty p)) as [pb|e2] eqn:Hp.
    + destruct (Nat.ltb_spec 32 (List.length pb)) as [Hlen|Hlen];
        [|discriminate].
      intros [= <-]. right. exists pb. now repeat split.
    + intros [= <-]. left. split; [reflexivity|]. right.
      now rewrite (str_encode_raises _ _ Hp).
  - intros [= <-]. left. split; [reflexivity|]. left.
    now rewrite (str_encode_raises _ _ Hn).
Qed.

(** X3.  What [parse_callback_data] returns was signed: the first 16
    bytes that the prelude decodes to are the keyed digest of the name
    returned, the chat id and the bytes after the prelude.  The name has
    at most 8 bytes.  The payload is [None] when nothing follows the
    prelude, and else a string that is not empty and whose UTF-8
    encoding is the bytes that follow it. *)
Theorem parse_callback_data_sound (bot : Bot) (chat : Chat) (raw : pystr)
    (name : bytes) (data : option pystr) :
  parse_callback_data get_hmac bot chat raw = Ok (name, data) ->
  exists rawb prelude,
    str_encode raw = Ok rawb /\
    (32 <= List.length rawb)%nat /\
    b64decode (firstn 32 rawb) = Ok prelude /\
    name = skipn 16 prelude /\
    firstn 16 prelude
    = get_hmac bot (signed_message name chat (skipn 32 rawb)) /\
    (List.length name <= 8)%nat /\
    match data with
    | None => skipn 32 rawb = []
    | Some d => d <> [] /\ str_encode d = Ok (skipn 32 rawb)
    end.
Proof.
  intros H.
  destruct (str_encode raw) as [rawb|] eqn:Hraw;
    [|unfold parse_callback_data in H; rewrite Hraw in H; discriminate].
  rewrite (parse_callback_data_encoded get_hmac bot chat raw rawb Hraw) in H.
  destruct (Nat.ltb_spec (List.length rawb) 32) as [|Hlen]; [discriminate|].
  destruct (b64decode (firstn 32 rawb)) as [prelude|e] eqn:Hb64;
    [|rewrite (b64decode_raises _ _ Hb64) in H; discriminate].
  cbn [except_binascii bind] in H.
  destruct (compare _ (firstn 16 prelude)) eqn:Hcmp;
    cbn [negb] in H; [|discriminate].
  apply compare_true_iff in Hcmp.
  assert (List.length (skipn 16 prelude) <= 8)%nat as Hname.
  { apply b64decode_length in Hb64.
    rewrite length_firstn in Hb64. rewrite length_skipn. lia. }
  exists rawb, prelude.
  destruct (skipn 32 rawb) as [|b rest] eqn:Hdata.
  - injection H as <- <-. now repeat split.
  - destruct (bytes_decode (b :: rest)) as [d|] eqn:Hdec;
      cbn [bind] in H; [|discriminate].
    injection H as <- <-. repeat split; try assumption; try (now symmetry).
    + intros ->. apply bytes_decode_nil in Hdec. discriminate.
    + now apply encode_decode.
Qed.

(** The signature has [DIGEST_LEN] bytes. *)
Hypothesis get_hmac_length :
  forall bot m, List.length (get_hmac bot m) = DIGEST_LEN.

(** X4.  A token is 32 characters of the base64 alphabet, none of them
    a pad, followed by the payload as it was given; its UTF-8 encoding
    has 32 bytes more than that of the payload, and at most 64. *)
Theorem token_shape (bot : Bot) (chat : Chat) (n : pystr)
    (p : option pystr) (tok : pystr) :
  get_callback_data get_hmac bot chat n p = Ok tok ->
  exists rawb pb,
    str_encode tok = Ok rawb /\
    str_encode (or_empty p) = Ok pb /\
    List.length rawb = (32 + List.length pb)%nat /\
    (List.length rawb <= 64)%nat /\
    Forall (fun ch => b64_val ch <> None) (firstn 32 rawb) /\
    firstn 32 tok = ascii_str (firstn 32 rawb) /\
    skipn 32 tok = or_empty p.
Proof.
  intros H. apply get_callback_data_inv in H.
  destruct H as (nb & pb & Hn & Hp & Hlen & ->).
  unfold token.
  set (prelude := get_hmac bot (signed_message (firstn 8 (DIGEST nb)) chat pb)
                  ++ firstn 8 (DIGEST nb)).
  assert (List.length prelude = (3 * 8)%nat) as H24.
  { unfold prelude. rewrite length_app, get_hmac_length, hashed_name_length.
    reflexivity. }
  pose proof (b64encode_length _ _ H24) as H32.
  exists (b64encode prelude ++ pb), pb.
  split; [now apply str_encode_token|]. split; [assumption|].
  rewrite length_app, H32.
  rewrite (firstn_exact _ _ _ H32).
  assert (List.length (ascii_str (b64encode prelude)) = 32%nat) as H32'.
  { unfold ascii_str. now rewrite length_map. }
  rewrite (firstn_exact _ _ _ H32'), (skipn_exact _ _ _ H32').
  repeat split; try lia.
  now apply (b64encode_alphabet _ 8).
Qed.

(** The token that the closure of a callback button makes decodes, for
    the bot and the chat of the context, to the hashed name of
    [component:callback] and the payload of the button, [None] standing
    for no payload and for the empty one. *)
Lemma generated_token_decodes (c : Context Bot) (cb : pystr)
    (d : option pystr) (tok : pystr) :
  generate_callback_data get_hmac c cb d = Ok tok ->
  exists hn,
    hashed_callback_name (component_name c ++ lit ":" ++ cb) = Ok hn /\
    parse_callback_data get_hmac (ctx_bot c) (ctx_chat c) tok
    = Ok (hn, match or_empty d with [] => None | _ :: _ => Some (or_empty d) end).
Proof.
  unfold generate_callback_data. cbv zeta. intros H.
  apply get_callback_data_inv in H.
  destruct H as (nb & pb & Hn & Hp & Hlen & ->).
  exists (firstn 8 (DIGEST nb)).
  split; [now apply hashed_callback_name_Ok|].
  unfold token.
  rewrite (parse_token get_hmac _ _ _ _ pb (or_empty d)
             (get_hmac_length _ _) (hashed_name_length nb) Hp).
  now rewrite compare_refl.
Qed.

(** X5.  The name and the chat id are signed with nothing but a NUL
    between them, and the prelude may decode to fewer than 24 bytes.  So
    when the hashed name of a callback is five bytes [x], a NUL and
    [str(c'.id)], a token issued for it in any chat [c] gives, without
    the key, a string that [parse_callback_data] accepts in the chat
    [c']: it returns the name [x] and the payload [str(c.id)], NUL,
    payload of the token. *)
Theorem truncated_name_replay (bot : Bot) (c c' : Chat) (n : pystr)
    (p : option pystr) (tok : pystr) (x : bytes) :
  get_callback_data get_hmac bot c n p = Ok tok ->
  hashed_callback_name n = Ok (x ++ [x00] ++ int_bytes (chat_id c')) ->
  List.length x = 5%nat ->
  parse_callback_data get_hmac bot c' (replayed tok c)
  = Ok (x, Some (py_str_int (chat_id c) ++ [0] ++ or_empty p)).
Proof.
  intros Htok Hhn Hx. apply get_callback_data_inv in Htok.
  destruct Htok as (nb & pb & Hn & Hp & Hlen & ->).
  rewrite (hashed_callback_name_Ok _ _ Hn) in Hhn.
  assert (firstn 8 (DIGEST nb) = x ++ [x00] ++ int_bytes (chat_id c'))
    as Hhn' by congruence.
  clear Hhn. rename Hhn' into Hhn.
  pose proof (hashed_name_length nb) as H8. rewrite Hhn in H8.
  unfold token. rewrite Hhn.
  set (sig := get_hmac bot
                (signed_message (x ++ [x00] ++ int_bytes (chat_id c')) c pb)).
  assert (List.length sig = 16%nat) as Hsig by apply get_hmac_length.
  assert (List.length (sig ++ x) = (3 * 7)%nat) as H21.
  { rewrite length_app. lia. }
  assert (List.length ([x00] ++ int_bytes (chat_id c')) = (3 * 1)%nat) as H3.
  { rewrite !length_app in H8. rewrite length_app.
    cbn [List.length] in *. lia. }
  rewrite (app_assoc sig x), (b64encode_app _ _ 7 H21).
  pose proof (b64encode_length _ _ H21) as H28.
  pose proof (b64encode_length _ _ H3) as H4.
  set (B1 := b64encode (sig ++ x)) in *.
  set (B2 := b64encode ([x00] ++ int_bytes (chat_id c'))) in *.
  assert (firstn 28 (ascii_str (B1 ++ B2) ++ or_empty p) = ascii_str B1) as F.
  { unfold ascii_str. rewrite map_app, <- app_assoc.
    apply firstn_exact. now rewrite length_map. }
  assert (skipn 32 (ascii_str (B1 ++ B2) ++ or_empty p) = or_empty p) as S.
  { apply skipn_exact. unfold ascii_str.
    rewrite length_map, length_app. lia. }
  unfold replayed. rewrite F, S. unfold ascii_str. clear F S. subst B1 B2.
  (* the bytes of the string *)
  assert (str_encode
            (map Byte.to_N (b64encode (sig ++ x)) ++ lit "!!!!"
             ++ py_str_int (chat_id c) ++ [0] ++ or_empty p)
          = Ok (b64encode (sig ++ x) ++ blit "!!!!"
                ++ int_bytes (chat_id c) ++ [x00] ++ pb)) as Hraw.
  { apply str_encode_app; [apply str_encode_ascii, b64encode_ascii|].
    apply (str_encode_app (lit "!!!!") _ (blit "!!!!")); [reflexivity|].
    apply str_encode_app; [apply str_encode_py_str_int|].
    now apply (str_encode_app [0] _ [x00]). }
  rewrite (parse_callback_data_encoded get_hmac bot c' _ _ Hraw).
  assert (List.length (b64encode (sig ++ x) ++ blit "!!!!") = 32%nat) as H32.
  { rewrite length_app, H28. reflexivity. }
  rewrite (app_assoc (b64encode (sig ++ x)) (blit "!!!!")).
  destruct (Nat.ltb_spec
              (List.length ((b64encode (sig ++ x) ++ blit "!!!!")
                            ++ int_bytes (chat_id c) ++ [x00] ++ pb)) 32)
    as [Hshort|_]; [rewrite length_app in Hshort; lia|].
  rewrite (firstn_exact _ _ _ H32), (skipn_exact _ _ _ H32).
  unfold b64decode.
  rewrite (a2b_loop_b64encode_app _ _ 7 0 0 H21).
  change (a2b_loop (blit "!!!!") 0 0 0) with (@Ok bytes []).
  cbn [bind except_binascii]. rewrite app_nil_r.
  rewrite (firstn_exact _ _ _ Hsig), (skipn_exact _ _ _ Hsig).
  assert (signed_message x c' (int_bytes (chat_id c) ++ [x00] ++ pb)
          = signed_message (x ++ [x00] ++ int_bytes (chat_id c')) c pb) as ->.
  { unfold signed_message. now rewrite <- !app_assoc. }
  fold sig. rewrite compare_refl. cbn [negb].
  assert (bytes_decode (int_bytes (chat_id c) ++ [x00] ++ pb)
          = Ok (py_str_int (chat_id c) ++ [0] ++ or_empty p)) as Hdec.
  { apply decode_encode. apply str_encode_app; [apply str_encode_py_str_int|].
    now apply (str_encode_app [0] _ [x00]). }
  destruct (int_bytes (chat_id c) ++ [x00] ++ pb) as [|b rest] eqn:E.
  - destruct (int_bytes (chat_id c)); discriminate.
  - rewrite Hdec. reflexivity.
Qed.

End CallbackDataProperties.

(** ** More on keyboards *)

Lemma lookup_app (index : Z) (rows1 rows2 : list (Z * ButtonsRow)) :
  lookup index (rows1 ++ rows2) =
  match lookup index rows1 with
  | Some row => Some row
  | None => lookup index rows2
  end.
Proof.
  induction rows1 as [|[i r] rows1 IH]; cbn [app lookup]; [reflexivity|].
  now destruct (i =? index)%Z.
Qed.

Lemma lookup_store_same (index : Z) (row row' : ButtonsRow)
    (rows : list (Z * ButtonsRow)) :
  lookup index rows = Some row ->
  lookup index (store index row' rows) = Some row'.
Proof.
  induction rows as [|[i r] rows IH]; cbn [lookup store]; [discriminate|].
  destruct (Z.eqb_spec i index) as [->|Hne]; cbn [lookup].
  - now rewrite Z.eqb_refl.
  - destruct (Z.eqb_spec i index); [contradiction | assumption].
Qed.

Lemma lookup_store_other (index j : Z) (row' : ButtonsRow)
    (rows : list (Z * ButtonsRow)) :
  j <> index ->
  lookup j (store index row' rows) = lookup j rows.
Proof.
  intros Hne. induction rows as [|[i r] rows IH]; cbn [lookup store];
    [reflexivity|].
  destruct (Z.eqb_spec i index) as [->|Hi]; cbn [lookup].
  - destruct (Z.eqb_spec index j); [congruence | reflexivity].
  - now rewrite IH.
Qed.

Lemma getitem_lookup (kb : Buttons) (index : Z) :
  lookup index (_rows (fst (__getitem__ kb index)))
  = Some (snd (__getitem__ kb index)).
Proof.
  unfold __getitem__.
  destruct (lookup index (_rows kb)) as [row|] eqn:E; cbn [fst snd _rows].
  - assumption.
  - rewrite lookup_app, E. cbn [lookup]. now rewrite Z.eqb_refl.
Qed.

Lemma getitem_lookup_other (kb : Buttons) (index j : Z) :
  j <> index ->
  lookup j (_rows (fst (__getitem__ kb index))) = lookup j (_rows kb).
Proof.
  intros Hne. unfold __getitem__.
  destruct (lookup index (_rows kb)) as [row|] eqn:E; cbn [fst snd _rows];
    [reflexivity|].
  rewrite lookup_app. destruct (lookup j (_rows kb)); [reflexivity|].
  cbn [lookup]. destruct (Z.eqb_spec index j); [congruence | reflexivity].
Qed.

(** X6.  [kb[index]] gives the row that the keyboard holds at [index],
    a fresh empty row if it held none; a second access gives the same
    row and leaves the keyboard as the first one left it; the rows at
    other indices are the same before and after. *)
Theorem getitem_laws (kb : Buttons) (index : Z) :
  let kb' := fst (__getitem__ kb index) in
  let row := snd (__getitem__ kb index) in
  row = match lookup index (_rows kb) with
        | Some r => r
        | None => new_row
        end /\
  lookup index (_rows kb') = Some row /\
  __getitem__ kb' index = (kb', row) /\
  (forall j, j <> index -> lookup j (_rows kb') = lookup j (_rows kb)).
Proof.
  cbv zeta. split; [|split; [|split]].
  - unfold __getitem__. now destruct (lookup index (_rows kb)).
  - apply getitem_lookup.
  - pose proof (getitem_lookup kb index) as H.
    unfold __getitem__ at 1. now rewrite H.
  - intros j Hj. now apply getitem_lookup_other.
Qed.

(** X7.  A method called through [kb[index]] changes the row at
    [index], created empty if the keyboard held none, and nothing else:
    the rows at other indices and the order of the indices in the dict
    stay as they were, [index] coming last when it is new. *)
Theorem row_method_laws (kb : Buttons) (index : Z)
    (m : ButtonsRow -> ButtonsRow) :
  lookup index (_rows (on_row kb index m))
  = Some (m match lookup index (_rows kb) with
            | Some r => r
            | None => new_row
            end) /\
  (forall j, j <> index ->
     lookup j (_rows (on_row kb index m)) = lookup j (_rows kb)) /\
  map fst (_rows (on_row kb index m))
  = match lookup index (_rows kb) with
    | Some _ => map fst (_rows kb)
    | None => map fst (_rows kb) ++ [index]
    end.
Proof.
  pose proof (getitem_lookup kb index) as Hl.
  pose proof (getitem_lookup_other kb index) as Ho.
  unfold on_row. unfold __getitem__ in *.
  destruct (lookup index (_rows kb)) as [row|] eqn:E;
    cbn [fst snd _rows] in *; repeat split.
  - now apply (lookup_store_same _ row).
  - intros j Hj. now rewrite lookup_store_other.
  - apply store_keys.
  - now apply (lookup_store_same _ new_row).
  - intros j Hj. rewrite lookup_store_other by assumption. now apply Ho.
  - now rewrite store_keys, map_app.
Qed.

Lemma run_step_lookup (kb : Buttons) (s : step) :
  lookup (step_index s) (_rows (run_step kb s))
  = Some (step_method s (snd (__getitem__ kb (step_index s)))).
Proof.
  pose proof (getitem_lookup kb (step_index s)) as H.
  destruct s; cbn [run_step step_index step_method] in *;
    [assumption|..];
    unfold on_row; destruct (__getitem__ kb index) as [kb' row];
    cbn [fst snd _rows] in *; now apply (lookup_store_same _ row).
Qed.

Lemma run_step_lookup_other (kb : Buttons) (s : step) (j : Z) :
  j <> step_index s ->
  lookup j (_rows (run_step kb s)) = lookup j (_rows kb).
Proof.
  intros Hne. pose proof (getitem_lookup_other kb (step_index s) j Hne) as H.
  destruct s; cbn [run_step step_index] in *; [assumption|..];
    unfold on_row; destruct (__getitem__ kb index) as [kb' row];
    cbn [fst snd _rows] in *; now rewrite lookup_store_other.
Qed.

Lemma row_after_snoc (steps : list step) (s : step) (index : Z) :
  row_after (steps ++ [s]) index =
  if (step_index s =? index)%Z then step_method s (row_after steps index)
  else row_after steps index.
Proof. unfold row_after. now rewrite fold_left_app. Qed.

Lemma row_after_untouched (steps : list step) (index : Z) :
  existsb (fun s => (step_index s =? index)%Z) steps = false ->
  row_after steps index = new_row.
Proof.
  induction steps as [|s steps IH] using rev_ind; [reflexivity|].
  rewrite existsb_app, row_after_snoc. cbn [existsb].
  destruct (step_index s =? index)%Z; cbn [orb].
  - rewrite orb_true_r. discriminate.
  - rewrite !orb_false_r. exact IH.
Qed.

(** The keyboard that statements build holds a row at the indices that
    the statements name and at no other, and the row at an index is a
    fresh row after the method calls made through that index, in their
    order: calls through other indices do not touch it. *)
Lemma rows_of_build (steps : list step) (index : Z) :
  lookup index (_rows (build steps)) =
  if existsb (fun s => (step_index s =? index)%Z) steps
  then Some (row_after steps index)
  else None.
Proof.
  induction steps as [|s steps IH] using rev_ind; [reflexivity|].
  rewrite build_snoc, existsb_app, row_after_snoc. cbn [existsb].
  rewrite orb_false_r.
  destruct (Z.eqb_spec (step_index s) index) as [<-|Hne].
  - rewrite orb_true_r, run_step_lookup. f_equal. f_equal.
    unfold __getitem__. rewrite IH.
    destruct (existsb _ steps) eqn:E; cbn [snd]; [reflexivity|].
    symmetry. now apply row_after_untouched.
  - rewrite orb_false_r, run_step_lookup_other by congruence. exact IH.
Qed.

Lemma mapM_ext_in {A B} (f g : A -> result B) (l : list A) :
  (forall x, In x l -> f x = g x) -> mapM f l = mapM g l.
Proof.
  induction l as [|x l IH]; intros H; [reflexivity|].
  cbn [mapM]. rewrite (H x (or_introl eq_refl)), IH; [reflexivity|].
  intros; apply H; now right.
Qed.

Lemma mapM_map {A B C} (f : B -> result C) (g : A -> B) (l : list A) :
  mapM f (map g l) = mapM (fun x => f (g x)) l.
Proof.
  induction l as [|x l IH]; [reflexivity|].
  cbn [map mapM]. now rewrite IH.
Qed.

Lemma mapM_raises {A B} (f : A -> result B) (l : list A) (e : exn) :
  mapM f l = Raise e -> exists x, In x l /\ f x = Raise e.
Proof.
  induction l as [|x l IH]; cbn [mapM]; [discriminate|].
  destruct (f x) as [y|e'] eqn:E; cbn [bind].
  - destruct (mapM f l) as [ys|e'']; cbn [bind]; [discriminate|].
    intros [= <-]. destruct IH as (x' & Hin & Hx'); [reflexivity|].
    exists x'. split; [now right | assumption].
  - intros [= <-]. exists x. split; [now left | assumption].
Qed.

Lemma mapM_pure {A B} (f : A -> B) (l : list A) :
  mapM (fun x => Ok (f x)) l = Ok (map f l).
Proof.
  induction l as [|x l IH]; [reflexivity|].
  cbn [mapM map bind]. now rewrite IH.
Qed.

Lemma Forall2_In_l {A B} (R : A -> B -> Prop) (l : list A) (l' : list B)
    (x : A) :
  Forall2 R l l' -> In x l -> exists y, In y l' /\ R x y.
Proof.
  induction 1 as [|a b l l' Hab _ IH]; intros Hin; [destruct Hin|].
  destruct Hin as [->|Hin].
  - exists b. split; [now left | assumption].
  - destruct (IH Hin) as (y & Hy & HR). exists y. split; [now right | assumption].
Qed.

(** The buttons of a row are those that the statements put there. *)
Lemma row_after_content (steps : list step) (index : Z) (s : step) :
  In s steps -> step_index s = index ->
  forall b, In b (_content (step_method s new_row)) ->
            In b (_content (row_after steps index)).
Proof.
  intros Hin Hidx b Hb.
  induction steps as [|s' steps IH] using rev_ind; [destruct Hin|].
  rewrite row_after_snoc. apply in_app_or in Hin.
  assert (forall r, In b (_content r) ->
                    In b (_content (step_method s' r))) as Hkeep.
  { intros r Hr. destruct s' as [| | |? ? ? []];
      cbn [step_method url callback switch_inline_query _content];
      try assumption; apply in_or_app; now left. }
  destruct Hin as [Hin|[->|[]]].
  - destruct (step_index s' =? index)%Z; [apply Hkeep|]; now apply IH.
  - rewrite Hidx, Z.eqb_refl.
    destruct s as [| | |? ? ? []];
      cbn [step_method url callback switch_inline_query _content app] in *;
      try contradiction; apply in_or_app; right; assumption.
Qed.

(** A row that no callback button was put in holds plain values only. *)
Lemma row_after_static (steps : list step) (index : Z) :
  (forall s, In s steps -> is_callback s = false) ->
  Forall (Forall (fun kv => exists v, snd kv = Static v))
    (_content (row_after steps index)).
Proof.
  intros Hstatic.
  induction steps as [|s steps IH] using rev_ind; [constructor|].
  rewrite row_after_snoc.
  assert (Forall (Forall (fun kv : string * field => exists v, snd kv = Static v))
            (_content (row_after steps index))) as IH'.
  { apply IH. intros s' Hs'. apply Hstatic. apply in_or_app. now left. }
  destruct (step_index s =? index)%Z; [|assumption].
  specialize (Hstatic s (in_or_app steps [s] s (or_intror (or_introl eq_refl)))).
  destruct s as [| | |? ? ? []]; try discriminate;
    cbn [step_method url switch_inline_query _content];
    try assumption;
    (apply Forall_app; split; [assumption|]);
    repeat constructor; cbn [snd]; eauto.
Qed.

Section KeyboardProperties.

Context {Bot : Type}.
Variable get_hmac : Bot -> bytes -> bytes.

Lemma serialize_build (c : Context Bot) (steps : list step) :
  _serialize_attachment get_hmac c (build steps) =
  rows <- mapM (fun i => _get_content get_hmac c (row_after steps i))
            (emitted_indices (build steps)) ;;
  Ok {| inline_keyboard := rows |}.
Proof.
  unfold _serialize_attachment, emitted_indices. rewrite mapM_map.
  rewrite (mapM_ext_in
             (fun ir => _get_content get_hmac c (snd ir))
             (fun ir => _get_content get_hmac c (row_after steps (fst ir))));
    [reflexivity|].
  intros [i row] Hin. cbn [fst snd]. f_equal.
  destruct (build_keys steps) as [Hnd _].
  assert (lookup i (_rows (build steps)) = Some row) as Hl.
  { apply lookup_In; [assumption|].
    eapply Permutation_in; [apply sorted_perm | exact Hin]. }
  rewrite rows_of_build in Hl.
  destruct (existsb _ steps); congruence.
Qed.

Lemma get_content_static (c : Context Bot) (row : ButtonsRow) :
  Forall (Forall (fun kv => exists v, snd kv = Static v)) (_content row) ->
  _get_content get_hmac c row = Ok (map static_button (_content row)).
Proof.
  intros H. unfold _get_content. rewrite <- mapM_pure.
  apply mapM_ext_in. intros b Hb.
  rewrite Forall_forall in H. specialize (H b Hb). clear Hb.
  induction H as [|[k f] b [v Hv] _ IH]; [reflexivity|].
  cbn [snd] in Hv. subst f.
  cbn [mapM static_button flat_map]. unfold resolve at 1. cbn [snd fst bind].
  fold (static_button b). now rewrite IH.
Qed.

(** X8.  A keyboard that was given no callback button is sent the same
    whatever the bot, the chat and the component are, and sending it
    raises nothing: one row for each index named, in ascending order,
    with the buttons of the row in the order they were added. *)
Theorem static_keyboard (steps : list step) :
  (forall s, In s steps -> is_callback s = false) ->
  forall c : Context Bot,
    _serialize_attachment get_hmac c (build steps) =
    Ok {| inline_keyboard :=
            map (fun i => map static_button (_content (row_after steps i)))
              (emitted_indices (build steps)) |}.
Proof.
  intros Hstatic c. rewrite serialize_build.
  rewrite (mapM_ext_in _
             (fun i => Ok (map static_button (_content (row_after steps i))))).
  - now rewrite mapM_pure.
  - intros i _. apply get_content_static. now apply row_after_static.
Qed.

Lemma resolve_raises (c : Context Bot) (kv : string * field) (e : exn) :
  resolve get_hmac c kv = Raise e ->
  e = UnicodeEncodeError \/
  exists k, (32 < k)%nat /\ e = ValueError (too_big k).
Proof.
  unfold resolve. destruct (snd kv) as [v|cb d]; [discriminate|].
  unfold generate_callback_data. cbv zeta.
  destruct (get_callback_data _ _ _ _ d) as [tok|e'] eqn:E; cbn [bind];
    [discriminate|].
  intros [= <-].
  destruct (get_callback_data_raises get_hmac _ _ _ _ _ E)
    as [->|(k & Hk & ->)]; [now left|].
  right. now exists k.
Qed.

(** X9.  Sending a keyboard raises nothing but what making a token
    raises: [UnicodeEncodeError], or the [ValueError] of a payload of
    more than 32 bytes; and it does raise when some callback button of
    the keyboard was given such a payload, which adding the button did
    not. *)
Theorem serialization_errors (c : Context Bot) (steps : list step) :
  (forall e,
     _serialize_attachment get_hmac c (build steps) = Raise e ->
     e = UnicodeEncodeError \/
     exists k, (32 < k)%nat /\ e = ValueError (too_big k)) /\
  (forall index label cb d pb,
     In (Callback index label cb (Some d)) steps ->
     str_encode d = Ok pb ->
     (32 < List.length pb)%nat ->
     exists e, _serialize_attachment get_hmac c (build steps) = Raise e).
Proof.
  split.
  - intros e H. rewrite serialize_build in H.
    destruct (mapM _ (emitted_indices (build steps))) as [rows|e'] eqn:E;
      cbn [bind] in H; [discriminate|].
    injection H as <-.
    apply mapM_raises in E. destruct E as (i & _ & E).
    unfold _get_content in E.
    apply mapM_raises in E. destruct E as (b & _ & E).
    apply mapM_raises in E. destruct E as (kv & _ & E).
    now apply (resolve_raises c kv).
  - intros index label cb d pb Hin Hd Hlen.
    destruct (_serialize_attachment get_hmac c (build steps)) as [att|e] eqn:E;
      [|now exists e].
    exfalso. rewrite serialize_build in E.
    destruct (mapM _ (emitted_indices (build steps))) as [rows|] eqn:Erows;
      cbn [bind] in E; [|discriminate].
    apply mapM_Forall2 in Erows.
    assert (In index (emitted_indices (build steps))) as Hidx.
    { apply emitted_indices_spec. apply in_map_iff.
      now exists (Callback index label cb (Some d)). }
    destruct (Forall2_In_l _ _ _ _ Erows Hidx) as (wire & _ & Hwire).
    cbv beta in Hwire. unfold _get_content in Hwire.
    apply mapM_Forall2 in Hwire.
    assert (In [("text"%string, Static label);
                ("callback_data"%string, Callable cb (Some d))]
              (_content (row_after steps index))) as Hb.
    { apply (row_after_content steps index _ Hin eq_refl).
      cbn. now left. }
    destruct (Forall2_In_l _ _ _ _ Hwire Hb) as (wb & _ & Hwb).
    cbv beta in Hwb. cbn [mapM] in Hwb.
    unfold resolve at 1 in Hwb. cbn [snd fst bind] in Hwb.
    unfold resolve in Hwb. cbn [snd fst] in Hwb.
    destruct (generate_callback_data get_hmac c cb (Some d)) as [tok|] eqn:G;
      cbn [bind] in Hwb; [|discriminate].
    unfold generate_callback_data in G. cbv zeta in G.
    apply get_callback_data_inv in G.
    destruct G as (nb & pb' & _ & Hd' & Hlen' & _).
    cbn [or_empty] in Hd'. rewrite Hd in Hd'. injection Hd' as <-. lia.
Qed.

(** The signature has [DIGEST_LEN] bytes. *)
Hypothesis get_hmac_length :
  forall bot m, List.length (get_hmac bot m) = DIGEST_LEN.

(** X10.  When a keyboard is sent, each of its callback buttons is in
    the attachment as its label and a token, and the token decodes, for
    the bot and the chat that the keyboard is sent to, to the hashed
    name of [component:callback] and the payload of the button. *)
Theorem sent_tokens_decode (c : Context Bot) (steps : list step)
    (att : attachment) (index : Z) (label cb : pystr) (d : option pystr) :
  _serialize_attachment get_hmac c (build steps) = Ok att ->
  In (Callback index label cb d) steps ->
  exists row tok hn,
    In row (inline_keyboard att) /\
    In [("text"%string, label); ("callback_data"%string, tok)] row /\
    hashed_callback_name (component_name c ++ lit ":" ++ cb) = Ok hn /\
    parse_callback_data get_hmac (ctx_bot c) (ctx_chat c) tok
    = Ok (hn, match or_empty d with
              | [] => None
              | _ :: _ => Some (or_empty d)
              end).
Proof.
  intros E Hin. rewrite serialize_build in E.
  destruct (mapM _ (emitted_indices (build steps))) as [rows|] eqn:Erows;
    cbn [bind] in E; [|discriminate].
  injection E as <-. cbn [inline_keyboard].
  apply mapM_Forall2 in Erows.
  assert (In index (emitted_indices (build steps))) as Hidx.
  { apply emitted_indices_spec. apply in_map_iff.
    now exists (Callback index label cb d). }
  destruct (Forall2_In_l _ _ _ _ Erows Hidx) as (wire & Hwire_in & Hwire).
  cbv beta in Hwire. unfold _get_content in Hwire.
  apply mapM_Forall2 in Hwire.
  assert (In [("text"%string, Static label);
              ("callback_data"%string, Callable cb d)]
            (_content (row_after steps index))) as Hb.
  { apply (row_after_content steps index _ Hin eq_refl). cbn. now left. }
  destruct (Forall2_In_l _ _ _ _ Hwire Hb) as (wb & Hwb_in & Hwb).
  cbv beta in Hwb. cbn [mapM] in Hwb.
  unfold resolve at 1 in Hwb. cbn [snd fst bind] in Hwb.
  unfold resolve in Hwb. cbn [snd fst] in Hwb.
  destruct (generate_callback_data get_hmac c cb d) as [tok|] eqn:G;
    cbn [bind] in Hwb; [|discriminate].
  injection Hwb as <-.
  destruct (generated_token_decodes get_hmac get_hmac_length c cb d tok G)
    as (hn & Hhn & Hparse).
  exists wire, tok, hn. now repeat split.
Qed.

End KeyboardProperties.

(** ** More on the dispatcher *)

Section DispatcherProperties.

Context {Bot : Type}.
Variable get_hmac : Bot -> bytes -> bytes.
Variables (bot : Bot) (update : Update) (name : bytes) (data : option pystr).

(** The loop goes through the hooks that pass. *)
Lemma run_hooks_passing (pre rest : list (Hook Bot)) :
  (forall g, In g pre -> passes bot update name data g) ->
  run_hooks bot update name data (pre ++ rest) =
  (passing_trace bot update name data pre
   ++ fst (run_hooks bot update name data rest),
   snd (run_hooks bot update name data rest)).
Proof.
  induction pre as [|g pre IH]; intros Hpre.
  - cbn [app passing_trace flat_map]. now destruct (run_hooks _ _ _ _ rest).
  - destruct (Hpre g (or_introl eq_refl)) as (v & Hv & Hnot).
    cbn [app run_hooks]. rewrite Hv, Hnot.
    rewrite IH by (intros; apply Hpre; now right).
    reflexivity.
Qed.

(** Either every hook passes, or there is a first one that does not. *)
Lemma first_not_passing (hooks : list (Hook Bot)) :
  (forall g, In g hooks -> passes bot update name data g) \/
  exists pre h post,
    hooks = pre ++ h :: post /\
    (forall g, In g pre -> passes bot update name data g) /\
    ((exists v, call h bot update name data = Ok v /\ is_True v = true) \/
     (exists e, call h bot update name data = Raise e)).
Proof.
  induction hooks as [|g hooks IH]; [left; intros g []|].
  destruct (call g bot update name data) as [v|e] eqn:Hg.
  - destruct (is_True v) eqn:Hv.
    + right. exists [], g, hooks. repeat split; [intros ? []|].
      left. now exists v.
    + destruct IH as [Hall|(pre & h & post & -> & Hpre & Hh)].
      * left. intros g' [<-|Hin]; [now exists v | now apply Hall].
      * right. exists (g :: pre), h, post. repeat split; [|assumption].
        intros g' [<-|Hin]; [now exists v | now apply Hpre].
  - right. exists [], g, hooks. repeat split; [intros ? []|].
    right. now exists e.
Qed.

End DispatcherProperties.

Section ProcessOutcomes.

Context {Bot : Type}.
Variable get_hmac : Bot -> bytes -> bytes.

(** X11.  [process] raises in two cases only, and logs nothing about
    either.  Decoding raised something other than
    [TamperedMessageError]: no hook was called.  Or a hook raised: the
    hooks before it were called and passed, no hook after it was
    called. *)
Theorem process_raises (bot : Bot) (chains : Chains Bot) (update : Update)
    (tr : list (event Bot)) (e : exn) :
  process get_hmac bot chains update = (tr, Raise e) <->
  (parse_callback_data get_hmac bot (chat update) (_data update) = Raise e /\
   e <> TamperedMessageError /\ tr = [])
  \/
  (exists name data pre h post,
     parse_callback_data get_hmac bot (chat update) (_data update)
     = Ok (name, data) /\
     callbacks chains = pre ++ h :: post /\
     (forall g, In g pre ->
        exists v, call g bot update name data = Ok v /\ is_True v = false) /\
     call h bot update name data = Raise e /\
     tr = passing_trace bot update name data (pre ++ [h])).
Proof.
  unfold process. cbv zeta.
  destruct (parse_callback_data get_hmac bot (chat update) (_data update))
    as [[name data]|e'] eqn:Hparse.
  - split.
    + intros H. right. exists name, data.
      destruct (first_not_passing bot update name data (callbacks chains))
        as [Hall|(pre & h & post & Hhooks & Hpre & Hh)].
      * rewrite <- (app_nil_r (callbacks chains)) in H.
        rewrite (run_hooks_passing bot update name data _ [] Hall) in H.
        discriminate.
      * exists pre, h, post.
        rewrite Hhooks, (run_hooks_passing bot update name data _ _ Hpre) in H.
        cbn [run_hooks] in H.
        destruct Hh as [(v & Hv & Htrue)|(e0 & He0)].
        -- rewrite Hv, Htrue in H. discriminate.
        -- rewrite He0 in H. cbn [fst snd] in H. injection H as <- <-.
           repeat split; try assumption.
           unfold passing_trace. now rewrite flat_map_app.
    + intros [(H & _)|(name' & data' & pre & h & post & Hp & Hhooks & Hpre
                       & Hh & ->)]; [discriminate|].
      injection Hp as <- <-.
      rewrite Hhooks, (run_hooks_passing bot update name data _ _ Hpre).
      cbn [run_hooks]. rewrite Hh. cbn [fst snd].
      unfold passing_trace. now rewrite flat_map_app.
  - split.
    + intros H. left.
      destruct e'; try (injection H as <- <-; repeat split; discriminate).
      discriminate.
    + intros [(H & Hne & ->)|(name & data & _ & _ & _ & H & _)];
        [|discriminate].
      injection H as ->. destruct e; congruence.
Qed.

(** X12.  [process] returns in three cases only, and its log tells them
    apart.  The data was tampered with: one warning, no hook called.  A
    hook answered [True]: before each hook called there is a line that
    names it, the hooks before that one passed, and the last line names
    the hook that took the update.  Every hook passed: the same lines,
    and a last one that says no hook took the update. *)
Theorem process_returns (bot : Bot) (chains : Chains Bot) (update : Update)
    (tr : list (event Bot)) :
  process get_hmac bot chains update = (tr, Ok tt) <->
  (parse_callback_data get_hmac bot (chat update) (_data update)
   = Raise TamperedMessageError /\
   tr = [Log WARN (msg_tampered update)])
  \/
  (exists name data,
     parse_callback_data get_hmac bot (chat update) (_data update)
     = Ok (name, data) /\
     ((exists pre h post v,
         callbacks chains = pre ++ h :: post /\
         (forall g, In g pre ->
            exists v, call g bot update name data = Ok v /\ is_True v = false)
         /\
         call h bot update name data = Ok v /\ is_True v = true /\
         tr = passing_trace bot update name data (pre ++ [h])
              ++ [Log DEBUG (msg_processed update h)])
      \/
      ((forall g, In g (callbacks chains) ->
          exists v, call g bot update name data = Ok v /\ is_True v = false)
       /\
       tr = passing_trace bot update name data (callbacks chains)
            ++ [Log DEBUG (msg_unclaimed update)]))).
Proof.
  unfold process. cbv zeta.
  destruct (parse_callback_data get_hmac bot (chat update) (_data update))
    as [[name data]|e'] eqn:Hparse.
  - split.
    + intros H. right. exists name, data. split; [reflexivity|].
      destruct (first_not_passing bot update name data (callbacks chains))
        as [Hall|(pre & h & post & Hhooks & Hpre & Hh)].
      * right. split; [assumption|].
        rewrite <- (app_nil_r (callbacks chains)) in H.
        rewrite (run_hooks_passing bot update name data _ [] Hall) in H.
        cbn [run_hooks fst snd] in H. now injection H as <-.
      * left.
        rewrite Hhooks, (run_hooks_passing bot update name data _ _ Hpre) in H.
        cbn [run_hooks] in H.
        destruct Hh as [(v & Hv & Htrue)|(e0 & He0)].
        -- exists pre, h, post, v. rewrite Hv, Htrue in H.
           cbn [fst snd] in H. injection H as <-.
           repeat split; try assumption.
           unfold passing_trace.
           now rewrite flat_map_app, <- !app_assoc.
        -- rewrite He0 in H. discriminate.
    + intros [(H & _)|(name' & data' & Hp & H)]; [discriminate|].
      injection Hp as <- <-.
      destruct H as [(pre & h & post & v & Hhooks & Hpre & Hv & Htrue & ->)
                    |(Hall & ->)].
      * rewrite Hhooks, (run_hooks_passing bot update name data _ _ Hpre).
        cbn [run_hooks]. rewrite Hv, Htrue. cbn [fst snd].
        unfold passing_trace. now rewrite flat_map_app, <- !app_assoc.
      * rewrite <- (app_nil_r (callbacks chains)) at 1.
        now rewrite (run_hooks_passing bot update name data _ [] Hall).
  - split.
    + intros H. left. destruct e'; try discriminate.
      injection H as <-. now split.
    + intros [(H & ->)|(name & data & H & _)]; [|discriminate].
      now injection H as ->.
Qed.

End ProcessOutcomes.

(** ** The further properties at the concrete bot *)

(** X1 at two hashed names of eight bytes. *)
Lemma signature_input_42_43 :
  exists m1 m2,
    get_signature hmac_md5 secret chat42 (blit "12345678") (blit "a")
    = Ok (hmac_md5 secret m1) /\
    get_signature hmac_md5 secret chat43 (blit "12345678") (blit "a")
    = Ok (hmac_md5 secret m2) /\
    (m1 = m2 ->
     blit "12345678" = blit "12345678" /\
     chat_id chat42 = chat_id chat43 /\ blit "a" = blit "a").
Proof.
  apply (signature_input_unambiguous hmac_md5 secret chat42 chat43
           (blit "12345678") (blit "12345678") (blit "a") (blit "a")).
  reflexivity.
Defined.

(** X2 at a payload of 33 bytes. *)
Lemma get_callback_data_errors_33 :
  (ValueError
     (lit "The provided data is too big (33 bytes), try to reduce it to 32 bytes")
   = UnicodeEncodeError /\
   (str_encode comp_cb = Raise UnicodeEncodeError \/
    str_encode (or_empty (Some (lit "aaaaaaaaaaaaaaaaaaaaaaaaaaaaaaaaa")))
    = Raise UnicodeEncodeError)) \/
  (exists pb,
     str_encode (or_empty (Some (lit "aaaaaaaaaaaaaaaaaaaaaaaaaaaaaaaaa")))
     = Ok pb /\
     (32 < List.length pb)%nat /\
     ValueError
       (lit "The provided data is too big (33 bytes), try to reduce it to 32 bytes")
     = ValueError (too_big (List.length pb))).
Proof.
  apply (get_callback_data_errors hmac_md5 secret chat42 comp_cb
           (Some (lit "aaaaaaaaaaaaaaaaaaaaaaaaaaaaaaaaa"))).
  reflexivity.
Defined.

(** X3 at the data of [update7]. *)
Lemma parse_callback_data_sound_update7 :
  exists rawb prelude,
    str_encode (_data update7) = Ok rawb /\
    (32 <= List.length rawb)%nat /\
    b64decode (firstn 32 rawb) = Ok prelude /\
    [x6e; xc6; x87; xb9; x8b; x23; x49; x86] = skipn 16 prelude /\
    firstn 16 prelude
    = hmac_md5 secret
        (signed_message [x6e; xc6; x87; xb9; x8b; x23; x49; x86] chat42
           (skipn 32 rawb)) /\
    (List.length [x6e; xc6; x87; xb9; x8b; x23; x49; x86] <= 8)%nat /\
    hello <> [] /\ str_encode hello = Ok (skipn 32 rawb).
Proof.
  apply (parse_callback_data_sound hmac_md5 secret chat42 (_data update7)
           [x6e; xc6; x87; xb9; x8b; x23; x49; x86] (Some hello)).
  vm_compute. reflexivity.
Defined.

(** X4 at the token of [comp:cb] with the payload [héllo]. *)
Lemma token_shape_hello :
  exists rawb pb,
    str_encode (_data update7) = Ok rawb /\
    str_encode (or_empty (Some hello)) = Ok pb /\
    List.length rawb = (32 + List.length pb)%nat /\
    (List.length rawb <= 64)%nat /\
    Forall (fun ch => b64_val ch <> None) (firstn 32 rawb) /\
    firstn 32 (_data update7) = ascii_str (firstn 32 rawb) /\
    skipn 32 (_data update7) = or_empty (Some hello).
Proof.
  apply (token_shape hmac_md5 hmac_md5_length secret chat42 comp_cb
           (Some hello) (_data update7)).
  vm_compute. reflexivity.
Defined.

(** X5 at the callback [comp:cb303655], whose hashed name is
    [94 91 51 f0 4c 00 38 33]: a token issued in the chat 42 gives a
    string that is accepted in the chat 83. *)
Lemma truncated_name_replay_83 :
  get_callback_data hmac_md5 secret chat42 comp_cb303655 (Some (lit "hi"))
  = Ok (lit "tzwuXtTQEI76LkdPsyOcdZSRUfBMADgzhi") /\
  replayed (lit "tzwuXtTQEI76LkdPsyOcdZSRUfBMADgzhi") chat42
  = lit "tzwuXtTQEI76LkdPsyOcdZSRUfBM!!!!42" ++ [0] ++ lit "hi" /\
  parse_callback_data hmac_md5 secret chat83
    (replayed (lit "tzwuXtTQEI76LkdPsyOcdZSRUfBMADgzhi") chat42)
  = Ok ([x94; x91; x51; xf0; x4c], Some (lit "42" ++ [0] ++ lit "hi")).
Proof.
  split; [vm_compute; reflexivity|]. split; [reflexivity|].
  apply (truncated_name_replay hmac_md5 hmac_md5_length secret chat42 chat83
           comp_cb303655 (Some (lit "hi")) _ [x94; x91; x51; xf0; x4c]).
  - vm_compute. reflexivity.
  - vm_compute. reflexivity.
  - reflexivity.
Defined.

(** X8 at a keyboard of two URL buttons and a switch button, sent to
    the chat 42 for one component and to the chat 83 for another. *)
Lemma static_keyboard_urls :
  _serialize_attachment hmac_md5
    {| ctx_bot := secret; ctx_chat := chat42; component_name := lit "comp" |}
    (build [Url 1 (lit "b") (lit "https://e.org/b");
            SwitchInlineQuery 0 (lit "s") (lit "q") true;
            Url 1 (lit "c") (lit "https://e.org/c")])
  = Ok {| inline_keyboard :=
            [[[("text"%string, lit "s");
               ("switch_inline_query_current_chat"%string, lit "q")]];
             [[("text"%string, lit "b"); ("url"%string, lit "https://e.org/b")];
              [("text"%string, lit "c"); ("url"%string, lit "https://e.org/c")]]] |}
  /\
  _serialize_attachment hmac_md5
    {| ctx_bot := blit "key"; ctx_chat := chat83; component_name := lit "other" |}
    (build [Url 1 (lit "b") (lit "https://e.org/b");
            SwitchInlineQuery 0 (lit "s") (lit "q") true;
            Url 1 (lit "c") (lit "https://e.org/c")])
  = Ok {| inline_keyboard :=
            [[[("text"%string, lit "s");
               ("switch_inline_query_current_chat"%string, lit "q")]];
             [[("text"%string, lit "b"); ("url"%string, lit "https://e.org/b")];
              [("text"%string, lit "c"); ("url"%string, lit "https://e.org/c")]]] |}.
Proof.
  split;
    apply (static_keyboard hmac_md5
             [Url 1 (lit "b") (lit "https://e.org/b");
              SwitchInlineQuery 0 (lit "s") (lit "q") true;
              Url 1 (lit "c") (lit "https://e.org/c")]);
    intros s [<-|[<-|[<-|[]]]]; reflexivity.
Defined.

(** X9 at a keyboard with a callback button of 33 bytes of payload. *)
Lemma serialization_errors_33 :
  exists e,
    _serialize_attachment hmac_md5
      {| ctx_bot := secret; ctx_chat := chat42; component_name := lit "comp" |}
      (build [Url 0 (lit "a") (lit "https://e.org/a");
              Callback 0 (lit "Go") (lit "cb")
                (Some (lit "aaaaaaaaaaaaaaaaaaaaaaaaaaaaaaaaa"))])
    = Raise e.
Proof.
  apply (proj2 (serialization_errors hmac_md5
                  {| ctx_bot := secret; ctx_chat := chat42;
                     component_name := lit "comp" |}
                  [Url 0 (lit "a") (lit "https://e.org/a");
                   Callback 0 (lit "Go") (lit "cb")
                     (Some (lit "aaaaaaaaaaaaaaaaaaaaaaaaaaaaaaaaa"))])
           0%Z (lit "Go") (lit "cb") (lit "aaaaaaaaaaaaaaaaaaaaaaaaaaaaaaaaa")
           (blit "aaaaaaaaaaaaaaaaaaaaaaaaaaaaaaaaa")).
  - right. now left.
  - reflexivity.
  - cbn. lia.
Defined.

(** X10 at a keyboard with one callback button. *)
Lemma sent_tokens_decode_go :
  exists row tok hn,
    In row [[[("text"%string, lit "Go");
              ("callback_data"%string, _data update7)]]] /\
    In [("text"%string, lit "Go"); ("callback_data"%string, tok)] row /\
    hashed_callback_name (lit "comp" ++ lit ":" ++ lit "cb") = Ok hn /\
    parse_callback_data hmac_md5 secret chat42 tok = Ok (hn, Some hello).
Proof.
  apply (sent_tokens_decode hmac_md5 hmac_md5_length
           {| ctx_bot := secret; ctx_chat := chat42;
              component_name := lit "comp" |}
           [Callback 0 (lit "Go") (lit "cb") (Some hello)]
           {| inline_keyboard :=
                [[[("text"%string, lit "Go");
                   ("callback_data"%string, _data update7)]]] |}
           0%Z (lit "Go") (lit "cb") (Some hello)).
  - exact callback_button.
  - now left.
Defined.

(** X11 at a hook that raises after one that passes. *)
Lemma process_raises_second_hook :
  process hmac_md5 secret
    {| callbacks :=
         [answering "A" PyNone;
          {| hook_name := lit "B";
             call := fun _ _ _ _ => Raise (ValueError (lit "no")) |};
          answering "C" (PyBool true)] |} update7
  = (passing_trace secret update7
       [x6e; xc6; x87; xb9; x8b; x23; x49; x86] (Some hello)
       [answering "A" PyNone;
        {| hook_name := lit "B";
           call := fun _ _ _ _ => Raise (ValueError (lit "no")) |}],
     Raise (ValueError (lit "no"))).
Proof.
  apply (proj2 (process_raises hmac_md5 secret _ update7 _ _)).
  right.
  exists [x6e; xc6; x87; xb9; x8b; x23; x49; x86], (Some hello),
         [answering "A" PyNone],
         {| hook_name := lit "B";
            call := fun _ _ _ _ => Raise (ValueError (lit "no")) |},
         [answering "C" (PyBool true)].
  split; [vm_compute; reflexivity|]. split; [reflexivity|].
  split; [|split; reflexivity].
  intros g [<-|[]]. exists PyNone. now split.
Defined.

(** X12 at the hooks [A], [B] and [C] of the first-match example: the
    whole log. *)
Lemma process_returns_A_B_C :
  process hmac_md5 secret
    {| callbacks := [answering "A" (PyBool false);
                     answering "B" (PyBool true);
                     answering "C" (PyBool true)] |} update7
  = ([Log DEBUG (lit "Processing update #7 with the hook A");
      Called (answering "A" (PyBool false)) secret update7
        [x6e; xc6; x87; xb9; x8b; x23; x49; x86] (Some hello);
      Log DEBUG (lit "Processing update #7 with the hook B");
      Called (answering "B" (PyBool true)) secret update7
        [x6e; xc6; x87; xb9; x8b; x23; x49; x86] (Some hello);
      Log DEBUG (lit "Update #7 was just processed by the B hook")],
     Ok tt).
Proof.
  apply (proj2 (process_returns hmac_md5 secret _ update7 _)).
  right.
  exists [x6e; xc6; x87; xb9; x8b; x23; x49; x86], (Some hello).
  split; [vm_compute; reflexivity|]. left.
  exists [answering "A" (PyBool false)], (answering "B" (PyBool true)),
         [answering "C" (PyBool true)], (PyBool true).
  split; [reflexivity|]. split; [|repeat split].
  intros g [<-|[]]. exists (PyBool false). now split.
Defined.
